(** * spikebench: segmentation, parsing, splitting and feature taxonomy

    A shallow embedding of [pyspikelib/train_transformers.py],
    [pyspikelib/utils.py] and the group split of
    [spikebench/load_datasets.py], with the properties of the
    specification stated over it.

    Conventions.
    - Python [int] is [Z]; [//] is floor division and raises on a zero
      divisor.
    - A [str] is a [string] of ASCII characters.
    - A numpy float64 is a [pyfloat]: a finite value is the rational the
      literal denotes, plus the two infinities and NaN. Rounding to binary64
      is not modelled: the one computation whose outcome depends on it, the
      ratio test of low-variance removal, is a parameter.
    - A raised exception is a value [Raise e] of [result]; [e] records the
      Python exception class and which operation raised it.
    - A pandas table is an object: variables hold references into a heap,
      so that a change made through one name is seen through the others.
    - Random draws are inputs: [np.random.choice] reads a sequence of raw
      draws, [GroupShuffleSplit] a permutation.
    - The libraries (numpy, pandas, tsfresh, sklearn) are modelled from
      their documented behaviour, as far as the sources use them; where
      pandas changed it (a set as an indexer), the version is a parameter. *)

From Stdlib Require Import ZArith QArith Qround List String Ascii Lia Permutation.
From stdpp Require Import base option list gmap strings sorting.

Open Scope string_scope.
Open Scope list_scope.
Open Scope Z_scope.

(** * The program

    The sources, and the library calls they make, as definitions. *)

(** ** Python *)

Module Py.

(** Exceptions: the built-in class and the operation that raised it. *)
Inductive value_error :=
| could_not_convert_string_to_float
| empty_separator
| negative_dimensions
| dimensions_must_match
| need_at_least_one_array
| a_must_be_non_empty
| invalid_test_size
| empty_train_set.

Inductive exn :=
| ValueError (why : value_error)
| IndexError_too_many_indices
| IndexError_out_of_bounds
| ZeroDivisionError
| KeyError (label : string)
| AttributeError
| TypeError.

Inductive result (A : Type) :=
| Ok (a : A)
| Raise (e : exn).
Arguments Ok {A} a.
Arguments Raise {A} e.

Definition bind {A B} (r : result A) (k : A -> result B) : result B :=
  match r with
  | Ok a => k a
  | Raise e => Raise e
  end.

#[global] Instance result_ret : MRet result := fun _ a => Ok a.
#[global] Instance result_bind : MBind result := fun _ _ k r => bind r k.
#[global] Instance result_fmap : FMap result :=
  fun _ _ g r => bind r (fun a => Ok (g a)).

Definition raises {A} (r : result A) : Prop := exists e, r = Raise e.

(** [a // b] *)
Definition floordiv (a b : Z) : result Z :=
  if b =? 0 then Raise ZeroDivisionError else Ok (a / b).

(** [range(n)] *)
Definition range (n : Z) : list Z := map Z.of_nat (seq 0 (Z.to_nat n)).

(** [l[:stop]] for a Python integer [stop], negative counting from the end. *)
Definition slice_to {A} (l : list A) (stop : Z) : list A :=
  if 0 <=? stop then take (Z.to_nat stop) l
  else take (length l - Z.to_nat (- stop)) l.

(** [l[start:stop]] for non-negative bounds. *)
Definition slice {A} (l : list A) (start stop : nat) : list A :=
  take (stop - start) (drop start l).

(** [seq[i]] for a non-negative index. *)
Definition getitem {A} (l : list A) (i : nat) : result A :=
  match l !! i with
  | Some x => Ok x
  | None => Raise IndexError_out_of_bounds
  end.

(** *** Floats *)

Inductive pyfloat :=
| Finite (q : Q)
| Infinity (negative : bool)
| NaN.

Definition zero : pyfloat := Finite 0.

(** Truth value of a float: everything but zero, NaN included. *)
Definition truthy (x : pyfloat) : bool :=
  match x with
  | Finite q => negb (Qeq_bool q 0)
  | _ => true
  end.

(** *** Characters *)

Definition code (c : ascii) : nat := nat_of_ascii c.

(** [str.isspace] on the ASCII range: \t \n \v \f \r, the separators
    0x1c..0x1f and the space. *)
Definition isspace (c : ascii) : bool :=
  let n := code c in
  ((9 <=? n) && (n <=? 13) || (28 <=? n) && (n <=? 31) || (n =? 32))%nat.

(** C's [Py_ISSPACE], which [float] strips: \t \n \v \f \r and the space. *)
Definition Py_ISSPACE (c : ascii) : bool :=
  let n := code c in
  ((9 <=? n) && (n <=? 13) || (n =? 32))%nat.

Definition isdigit (c : ascii) : bool :=
  let n := code c in ((48 <=? n) && (n <=? 57))%nat.

Definition lower (c : ascii) : ascii :=
  let n := code c in
  if ((65 <=? n) && (n <=? 90))%nat then ascii_of_nat (n + 32) else c.

(** *** [str.split] *)

Definition snoc (s : string) (c : ascii) : string := (s ++ String c "")%string.

(** [s.split()]: runs of whitespace separate the tokens, none is empty. *)
Fixpoint split_whitespace (cur : string) (s : string) : list string :=
  match s with
  | EmptyString => if decide (cur = "") then [] else [cur]
  | String c s' =>
      if isspace c
      then (if decide (cur = "") then split_whitespace "" s'
            else cur :: split_whitespace "" s')
      else split_whitespace (snoc cur c) s'
  end.

(** [s.split(sep)] for a non-empty [sep]: every occurrence, scanning from the
    left, ends a token; [skip] counts the characters of a separator still to
    be passed over. *)
Fixpoint split_sep (sep : string) (skip : nat) (cur : string) (s : string)
  : list string :=
  match s with
  | EmptyString => [cur]
  | String c s' =>
      match skip with
      | S k => split_sep sep k cur s'
      | O =>
          if String.prefix sep s
          then cur :: split_sep sep (String.length sep - 1) "" s'
          else split_sep sep 0 (snoc cur c) s'
      end
  end.

Definition split (s : string) (delimiter : option string)
  : result (list string) :=
  match delimiter with
  | None => Ok (split_whitespace "" s)
  | Some sep =>
      if decide (sep = "") then Raise (ValueError empty_separator)
      else Ok (split_sep sep 0 "" s)
  end.

(** *** [float(str)] *)

Fixpoint lstrip (l : list ascii) : list ascii :=
  match l with
  | c :: l' => if Py_ISSPACE c then lstrip l' else l
  | [] => []
  end.

Definition strip (l : list ascii) : list ascii :=
  rev (lstrip (rev (lstrip l))).

(** Underscores may only stand between two digits; they are removed. *)
Fixpoint remove_underscores (prev : option ascii) (l : list ascii)
  : option (list ascii) :=
  let after_digit :=
    match prev with Some p => isdigit p | None => false end in
  match l with
  | [] => if decide (prev = Some "_"%char) then None else Some []
  | c :: l' =>
      if decide (c = "_"%char)
      then (if after_digit then remove_underscores (Some c) l' else None)
      else
        if bool_decide (prev = Some "_"%char) && negb (isdigit c) then None
        else cons c <$> remove_underscores (Some c) l'
  end.

Fixpoint span_digits (l : list ascii) : list ascii * list ascii :=
  match l with
  | c :: l' =>
      if isdigit c
      then let '(ds, r) := span_digits l' in (c :: ds, r)
      else ([], l)
  | [] => ([], [])
  end.

Definition digits_value (ds : list ascii) : Z :=
  fold_left (fun acc d => 10 * acc + (Z.of_nat (code d) - 48)) ds 0.

Definition parse_sign (l : list ascii) : bool * list ascii :=
  match l with
  | "-"%char :: r => (true, r)
  | "+"%char :: r => (false, r)
  | _ => (false, l)
  end.

(** [m * 10 ^ e] *)
Definition scale10 (m e : Z) : Q :=
  if 0 <=? e then inject_Z (m * 10 ^ e)
  else Qmake m (Z.to_pos (10 ^ (- e))).

(** [digits [. digits] [e [sign] digits]], with at least one digit before the
    exponent. *)
Definition parse_number (l : list ascii) : option Q :=
  let '(ip, r1) := span_digits l in
  let '(fp, r2) :=
    match r1 with
    | "."%char :: r => span_digits r
    | _ => ([], r1)
    end in
  let mantissa := digits_value (ip ++ fp) in
  let places := Z.of_nat (length fp) in
  if decide (ip ++ fp = []) then None
  else
    match r2 with
    | [] => Some (scale10 mantissa (- places))
    | c :: r3 =>
        if decide (lower c = "e"%char) then
          let '(neg, r4) := parse_sign r3 in
          let '(ed, r5) := span_digits r4 in
          if decide (ed = []) then None
          else if decide (r5 = []) then
            let e := digits_value ed in
            Some (scale10 mantissa ((if neg then - e else e) - places))
          else None
        else None
    end.

Definition parse_inf_or_nan (l : list ascii) : option (bool -> pyfloat) :=
  let w := string_of_list_ascii (map lower l) in
  if bool_decide (w = "inf") || bool_decide (w = "infinity")
  then Some Infinity
  else if decide (w = "nan") then Some (fun _ => NaN)
  else None.

(** [float(s)]; [None] stands for the [ValueError] it raises. *)
Definition float_of_chars (l : list ascii) : option pyfloat :=
  l1 ← remove_underscores None (strip l);
  let '(neg, body) := parse_sign l1 in
  match parse_number body with
  | Some q => Some (Finite (if neg then Qopp q else q))
  | None => (fun mk => mk neg) <$> parse_inf_or_nan body
  end.

Definition float (s : string) : result pyfloat :=
  match float_of_chars (list_ascii_of_string s) with
  | Some x => Ok x
  | None => Raise (ValueError could_not_convert_string_to_float)
  end.

End Py.

Import Py.

(** ** numpy *)

Module np.

(** [np.roll(a, shift)] on a one-dimensional array: element [i] moves to
    position [(i + shift) mod n]. *)
Definition roll {A} (a : list A) (shift : Z) : list A :=
  match a with
  | [] => []
  | _ =>
      let k := Z.to_nat ((- shift) mod Z.of_nat (length a)) in
      drop k a ++ take k a
  end.

(** [np.zeros(n)] *)
Definition zeros (n : Z) : result (list pyfloat) :=
  if n <? 0 then Raise (ValueError negative_dimensions)
  else Ok (replicate (Z.to_nat n) zero).

(** [m.any()] on a stack of rows. *)
Definition any (m : list (list pyfloat)) : bool :=
  existsb (existsb truthy) m.

(** An array of one or of two dimensions; a two-dimensional one is the list
    of its rows. *)
Inductive ndarray :=
| Array1 (v : list pyfloat)
| Array2 (rows : list (list pyfloat)).

Definition atleast_2d (a : ndarray) : list (list pyfloat) :=
  match a with
  | Array1 v => [v]
  | Array2 rows => rows
  end.

(** Number of columns of a non-empty stack of rows. *)
Definition width (m : list (list pyfloat)) : nat := length (hd [] m).

(** [np.vstack([a, b])]: both are seen as stacks of rows, which must have the
    same width. *)
Definition vstack2 (a : ndarray) (b : list (list pyfloat)) : result ndarray :=
  let top := atleast_2d a in
  if decide (width top = width b) then Ok (Array2 (top ++ b))
  else Raise (ValueError dimensions_must_match).

(** [np.vstack(m)] on a two-dimensional array: its rows are stacked again,
    and there must be one at least. *)
Definition vstack (m : list (list pyfloat)) : result (list (list pyfloat)) :=
  match m with
  | [] => Raise (ValueError need_at_least_one_array)
  | _ => Ok m
  end.

(** [a[1:, :]] *)
Definition drop_first_row (a : ndarray) : result (list (list pyfloat)) :=
  match a with
  | Array1 _ => Raise IndexError_too_many_indices
  | Array2 rows => Ok (drop 1 rows)
  end.

(** [np.random.choice(a, size)] with the default [replace=True]: [size]
    indices below [a], each drawn on its own. [draws j] is the [j]-th raw
    draw of the global generator. *)
Definition random_choice (draws : nat -> nat) (a : nat) (size : Z)
  : result (list nat) :=
  if bool_decide (a = 0%nat) && negb (size =? 0)
  then Raise (ValueError a_must_be_non_empty)
  else if size <? 0 then Raise (ValueError negative_dimensions)
  else Ok (map (fun j => (draws j mod a)%nat) (seq 0 (Z.to_nat size))).

(** [m[indices]] along the first axis. *)
Definition take_indices {A} (m : list A) (indices : list nat)
  : result (list A) :=
  mapM (getitem m) indices.

(** [X[:, index]] on a two-dimensional array, given as its rows. *)
Definition column (X : list (list pyfloat)) (index : nat)
  : result (list pyfloat) :=
  mapM (fun row => getitem row index) X.

End np.

(** ** pandas *)

Module pd.

(** A table: the number of rows of its index, and its columns in order, each
    a label and the values down the rows. *)
Record DataFrame := {
  index : nat;
  columns : list (string * list pyfloat)
}.

(** [df.columns.values] *)
Definition columns_values (df : DataFrame) : list string := (columns df).*1.

(** The columns of [df] under one label; [KeyError] when there is none. *)
Definition select_label (df : DataFrame) (label : string)
  : result (list (string * list pyfloat)) :=
  match filter (fun c => c.1 = label) (columns df) with
  | [] => Raise (KeyError label)
  | cs => Ok cs
  end.

(** [df.loc[:, labels]]: a new table with the columns under each label, in
    the order of [labels], over the same index. *)
Definition loc_labels (df : DataFrame) (labels : list string)
  : result DataFrame :=
  cs ← mapM (select_label df) labels;
  Ok {| index := index df; columns := mjoin cs |}.

(** The pandas in use. Up to 1.x [.loc] takes a set as the list of its
    elements (with a deprecation warning from 1.5 on); from 2.0 on a set is
    refused as an indexer. *)
Inductive version :=
| before_2_0
| from_2_0.

(** [df.loc[:, labels]] for a set of labels, visited in the order the set
    yields them, here that of [elements]. *)
Definition loc_set (pandas : version) (df : DataFrame) (labels : gset string)
  : result DataFrame :=
  match pandas with
  | before_2_0 => loc_labels df (elements labels)
  | from_2_0 => Raise TypeError
  end.

(** [df.loc[:, mask]] for a boolean mask, one entry per column. *)
Definition loc_mask (df : DataFrame) (mask : list bool) : DataFrame :=
  {| index := index df;
     columns := (zip (columns df) mask) ≫= (fun '(c, keep) =>
                  if keep : bool then [c] else []) |}.

(** The values under [label], a column of NaN when the table has none. *)
Definition column_or_nan (df : DataFrame) (label : string) : list pyfloat :=
  match list_find (fun c => c.1 = label) (columns df) with
  | Some (_, c) => c.2
  | None => replicate (index df) NaN
  end.

(** [pd.concat([a, b], ignore_index=True, sort=False)] for two tables whose
    labels are distinct within each: the rows of [b] under those of [a],
    over the labels of [a] followed by those only [b] has, a missing column
    filled with NaN. *)
Definition concat2 (a b : DataFrame) : DataFrame :=
  let labels :=
    columns_values a
    ++ filter (fun label => label ∉ columns_values a) (columns_values b) in
  {| index := index a + index b;
     columns := (fun label =>
                   (label, column_or_nan a label ++ column_or_nan b label))
                <$> labels |}.

End pd.

(** ** tsfresh.utilities.dataframe_functions *)

Module tsfresh_utils.

Definition finite_values (col : list pyfloat) : list Q :=
  omap (fun x => match x with Finite q => Some q | _ => None end) col.

Fixpoint insert_sorted (x : Q) (l : list Q) : list Q :=
  match l with
  | [] => [x]
  | y :: l' => if Qle_bool x y then x :: l else y :: insert_sorted x l'
  end.

Definition sort (l : list Q) : list Q := foldr insert_sorted [] l.

(** The middle value, or the mean of the two middle values. *)
Definition median (l : list Q) : Q :=
  let s := sort l in
  let n := length s in
  if Nat.even n
  then ((nth (n / 2 - 1) s 0 + nth (n / 2) s 0) / 2)%Q
  else nth (n / 2) s 0%Q.

Definition maximum (l : list Q) : Q := default 0%Q (last (sort l)).
Definition minimum (l : list Q) : Q := hd 0%Q (sort l).

(** One column of [impute]: [+inf] becomes the largest finite value of the
    column, [-inf] the smallest, [NaN] the median; a column without a finite
    value is filled with zeros. *)
Definition impute_column (col : list pyfloat) : list pyfloat :=
  let fs := finite_values col in
  map (fun x =>
         match x with
         | Finite q => Finite q
         | Infinity false => Finite (maximum fs)
         | Infinity true => Finite (minimum fs)
         | NaN => Finite (median fs)
         end) col.

(** The table [impute(df)] leaves in [df]. *)
Definition impute (df : pd.DataFrame) : pd.DataFrame :=
  if decide (pd.index df = 0%nat) then df
  else {| pd.index := pd.index df;
          pd.columns := (fun c => (c.1, impute_column c.2)) <$> pd.columns df |}.

End tsfresh_utils.

(** ** pyspikelib/utils.py *)

Module utils.

(** The parameters of a feature: [None], or a list of one-entry dicts. *)
Definition fc_parameters : Type := option (list (string * Q)).

(** [np.arange(start, stop, step)] over the rationals. *)
Definition arange (start stop step : Q) : list Q :=
  map (fun i => (start + inject_Z i * step)%Q)
      (range (Qceiling ((stop - start) / step))).

Definition distribution_features_tsfresh_dict : gmap string fc_parameters :=
  let ratios_beyond_r_sigma_rvalues : list Q :=
    [1; 15 # 10; 2; 25 # 10; 3; 5; 6; 7; 10]%Q in
  list_to_map [
    ("symmetry_looking",
      Some (map (fun value => ("r", value)) (arange (5 # 100) 1 (5 # 100))));
    ("standard_deviation", None);
    ("kurtosis", None);
    ("variance_larger_than_standard_deviation", None);
    ("ratio_beyond_r_sigma",
      Some (map (fun value => ("r", value)) ratios_beyond_r_sigma_rvalues));
    ("count_below_mean", None);
    ("maximum", None);
    ("variance", None);
    ("abs_energy", None);
    ("mean", None);
    ("skewness", None);
    ("length", None);
    ("large_standard_deviation",
      Some (map (fun value => ("r", value)) (arange (5 # 100) 1 (5 # 100))));
    ("count_above_mean", None);
    ("minimum", None);
    ("sum_values", None);
    ("quantile",
      Some (map (fun value => ("q", value)) (arange (1 # 10) 1 (1 # 10))));
    ("ratio_value_number_to_time_series_length", None);
    ("median", None)
  ].

(** Both tables are indexed with a set; what [.loc] makes of it is up to
    the pandas in use. *)
Definition train_test_common_features (pandas : pd.version)
    (train_df test_df : pd.DataFrame)
  : result (pd.DataFrame * pd.DataFrame) :=
  let train_feature_set : gset string :=
    list_to_set (pd.columns_values train_df) in
  let test_feature_set : gset string :=
    list_to_set (pd.columns_values test_df) in
  train_df ← pd.loc_set pandas train_df
               (train_feature_set ∩ test_feature_set);
  test_df ← pd.loc_set pandas test_df
              (train_feature_set ∩ test_feature_set);
  Ok (train_df, test_df).

End utils.

(** ** pyspikelib/train_transformers.py: TrainNormalizeTransform *)

Module TrainNormalizeTransform.

Record t := {
  window : Z;
  step : Z;
  n_samples : option Z
}.

Definition string_to_float_series (string_series : string)
    (delimiter : option string) : result (list pyfloat) :=
  tokens ← split string_series delimiter;
  mapM float tokens.

Definition rolling_window (a : list pyfloat) (window step : Z)
  : result (option (list (list pyfloat))) :=
  q ← floordiv (Z.of_nat (length a) - window) step;
  let n_chunks := q + 1 in
  let split_chunks :=
    map (fun index => slice_to (np.roll a (- step * index)) window)
        (range n_chunks) in
  if np.any split_chunks
  then Some <$> np.vstack split_chunks
  else Ok None.

Section transform.
Context {L : Type}.
Variable self : t.
(** The raw draws of numpy's global random generator. *)
Variable draws : nat -> nat.
Variable y : list L.
Variable delimiter : option string.

(** The body of the loop over [enumerate(X.series.values)]. *)
Definition transform_step (acc : np.ndarray * list L)
    (train_index : nat) (spike_train : string)
  : result (np.ndarray * list L) :=
  let '(normalized_trains, target) := acc in
  spike_train ← string_to_float_series spike_train delimiter;
  split_chunks ← rolling_window spike_train (window self) (step self);
  match split_chunks with
  | Some split_chunks =>
      normalized_trains ← np.vstack2 normalized_trains split_chunks;
      label ← getitem y train_index;
      Ok (normalized_trains,
          target ++ replicate (length split_chunks) label)
  | None => Ok (normalized_trains, target)
  end.

Fixpoint transform_loop (train_index : nat) (X : list string)
    (acc : np.ndarray * list L) : result (np.ndarray * list L) :=
  match X with
  | [] => Ok acc
  | spike_train :: X' =>
      acc' ← transform_step acc train_index spike_train;
      transform_loop (S train_index) X' acc'
  end.

(** The [if self.n_samples is not None] block. *)
Definition subsample (normalized_trains : list (list pyfloat))
    (target : list L) : result (list (list pyfloat) * list L) :=
  match n_samples self with
  | Some k =>
      sampled_indices ← np.random_choice draws (length normalized_trains) k;
      normalized_trains ← np.take_indices normalized_trains sampled_indices;
      target ← np.take_indices target sampled_indices;
      Ok (normalized_trains, target)
  | None => Ok (normalized_trains, target)
  end.

(** [X] is the column [X.series.values]. *)
Definition transform (X : list string)
  : result (list (list pyfloat) * list L) :=
  seed ← np.zeros (window self);
  '(normalized_trains, target) ← transform_loop 0 X (np.Array1 seed, []);
  normalized_trains ← np.drop_first_row normalized_trains;
  '(normalized_trains, target) ← subsample normalized_trains target;
  normalized_trains ← np.vstack normalized_trains;
  Ok (normalized_trains, target).

End transform.

End TrainNormalizeTransform.

Import TrainNormalizeTransform.

(** ** pyspikelib/train_transformers.py: TsfreshVectorizeTransform *)

Module TsfreshVectorizeTransform.

(** An integer as a value of a numeric column. *)
Definition of_nat (n : nat) : pyfloat := Finite (inject_Z (Z.of_nat n)).

(** The body of the loop over [range(X.shape[1])]: [tmp] holds column [index]
    of [X] under ['value'], then [list(range(X.shape[0]))] under ['id'] and
    [[index] * X.shape[0]] under ['time']. *)
Definition format_step (X : list (list pyfloat)) (df : pd.DataFrame)
    (index : nat) : result pd.DataFrame :=
  values ← np.column X index;
  let tmp :=
    {| pd.index := length X;
       pd.columns := [("value", values);
                      ("id", of_nat <$> seq 0 (length X));
                      ("time", replicate (length X) (of_nat index))] |} in
  Ok (pd.concat2 df tmp).

Fixpoint format_loop (X : list (list pyfloat)) (indices : list nat)
    (df : pd.DataFrame) : result pd.DataFrame :=
  match indices with
  | [] => Ok df
  | index :: indices' =>
      df ← format_step X df index;
      format_loop X indices' df
  end.

(** [X] is a two-dimensional array, given as its rows: [X.shape[0]] is their
    number and [X.shape[1]] their width. *)
Definition transform_to_tsfresh_format (X : list (list pyfloat))
  : result pd.DataFrame :=
  let df := {| pd.index := 0;
               pd.columns := [("id", []); ("time", []); ("value", [])] |} in
  format_loop X (seq 0 (np.width X)) df.

Section get_feature_dict.
(** tsfresh's [ComprehensiveFCParameters()], the full catalog. *)
Variable ComprehensiveFCParameters : gmap string utils.fc_parameters.

Definition get_feature_dict (feature_set : option string)
  : gmap string utils.fc_parameters :=
  let full_feature_dict := ComprehensiveFCParameters in
  let simple_baseline_features : gmap string utils.fc_parameters :=
    list_to_map ((fun key => (key, None)) <$>
      ["abs_energy"; "mean"; "median"; "minimum"; "maximum";
       "standard_deviation"]) in
  let distribution_features_dict := utils.distribution_features_tsfresh_dict in
  let temporal_feature_dict : gmap string utils.fc_parameters :=
    set_to_map (fun key => (key, full_feature_dict !!! key))
      (dom full_feature_dict ∖ dom distribution_features_dict) in
  let feature_dict : gmap string (gmap string utils.fc_parameters) :=
    list_to_map [
      ("simple_baseline", simple_baseline_features);
      ("distribution_features", distribution_features_dict);
      ("temporal_features", temporal_feature_dict)
    ] in
  match feature_set with
  | Some name => default full_feature_dict (feature_dict !! name)
  | None => full_feature_dict
  end.

End get_feature_dict.

End TsfreshVectorizeTransform.

(** ** pyspikelib/train_transformers.py: the preprocessing pipeline *)

(** Tables are objects: a variable holds a reference, the heap maps each
    reference to the table it denotes. *)
Abbreviation ref := nat (only parsing).
Abbreviation heap := (gmap nat pd.DataFrame) (only parsing).

#[global] Instance DataFrame_inhabited : Inhabited pd.DataFrame :=
  populate {| pd.index := 0; pd.columns := [] |}.

(** A new object. *)
Definition alloc (df : pd.DataFrame) (h : heap) : ref * heap :=
  let r := fresh (dom h) in (r, <[r := df]> h).

Module DFTransform.

Record t := {
  func : ref → heap → result (ref * heap);
  copy : bool
}.

Definition transform (self : t) (X : ref) (h : heap) : result (ref * heap) :=
  let '(X_, h) := if negb (copy self) then (X, h) else alloc (h !!! X) h in
  func self X_ h.

End DFTransform.

(** [tsfresh_utils.impute(X)] rewrites the table of [X]; [X] is returned. *)
Definition _tsfresh_imputation (X : ref) (h : heap) : result (ref * heap) :=
  let h := <[X := tsfresh_utils.impute (h !!! X)]> h in
  Ok (X, h).

Section low_variance.
(** [(std / (1e-9 + mean)).abs() > 0.2] as pandas evaluates it in binary64
    on the values of a column that has two values at least, all finite. Its
    sums and roundings are pandas's and are not modelled: the test is any
    function of the values. *)
Variable float64_cv_exceeds : list Q → bool.

(** The test for one column. [std] is the sample deviation, NaN skipped; it
    is NaN, and the comparison false, with fewer than two values or with an
    infinite one. *)
Definition cv_exceeds (col : list pyfloat) : bool :=
  let fs := tsfresh_utils.finite_values col in
  if existsb (fun x => match x with Infinity _ => true | _ => false end) col
  then false
  else if (length fs <? 2)%nat then false
  else float64_cv_exceeds fs.

Definition _low_variance_removal (X : ref) (h : heap) : result (ref * heap) :=
  let df := h !!! X in
  Ok (alloc (pd.loc_mask df (map (fun c => cv_exceeds c.2) (pd.columns df))) h).

End low_variance.

Definition _select_features (X : ref) (feature_list : option (list string))
    (h : heap) : result (ref * heap) :=
  match feature_list with
  | None => Raise AttributeError
  | Some feature_list =>
      df ← pd.loc_labels (h !!! X) feature_list;
      Ok (alloc df h)
  end.

Module TsfreshFeaturePreprocessorPipeline.

Record t := {
  impute : bool;
  do_scaling : bool;
  remove_low_variance : bool;
  keep_features_list : option (list string)
}.

(** A step of the chain: a [DFTransform], or the class [StandardScaler]
    itself, which is what the code appends. *)
Inductive step :=
| Transformer (tr : DFTransform.t)
| StandardScaler.

Section construct_pipeline.
(** The binary64 test of [_low_variance_removal]. *)
Variable float64_cv_exceeds : list Q → bool.

Definition construct_pipeline (self : t) : list (string * step) :=
  let chained_transformers := [] in
  let chained_transformers :=
    match keep_features_list self with
    | Some _ =>
        chained_transformers ++
        [("select_features",
          Transformer
            {| DFTransform.func :=
                 fun X => _select_features X (keep_features_list self);
               DFTransform.copy := false |})]
    | None => chained_transformers
    end in
  let chained_transformers :=
    if impute self
    then chained_transformers ++
         [("imputation",
           Transformer {| DFTransform.func := _tsfresh_imputation;
                          DFTransform.copy := false |})]
    else chained_transformers in
  let chained_transformers :=
    if do_scaling self
    then chained_transformers ++ [("standard_scaling", StandardScaler)]
    else chained_transformers in
  let chained_transformers :=
    if remove_low_variance self
    then chained_transformers ++
         [("low_var_removal",
           Transformer
             {| DFTransform.func := _low_variance_removal float64_cv_exceeds;
                DFTransform.copy := true |})]
    else chained_transformers in
  chained_transformers.

End construct_pipeline.

End TsfreshFeaturePreprocessorPipeline.

(** ** sklearn.model_selection.GroupShuffleSplit *)

Module GroupShuffleSplit.

(** [np.unique(groups, return_inverse=True)]: the sorted distinct values and,
    for every entry, the position of its value among them. *)
Definition unique (groups : list Z) : list Z * list nat :=
  let classes := merge_sort Z.le (remove_dups groups) in
  (classes,
   map (fun g => default 0%nat (fst <$> list_find (fun c => c = g) classes))
       groups).

(** [np.isin(a, values)] *)
Definition isin (a values : list nat) : list bool :=
  map (fun x => bool_decide (x ∈ values)) a.

(** [np.flatnonzero(mask)] *)
Definition flatnonzero (mask : list bool) : list nat :=
  (imap (fun i b => (i, b)) mask) ≫= (fun '(i, b) => if b : bool then [i] else []).

(** The sizes of the two parts for a test fraction, [train_size] left to
    default. *)
Definition _validate_shuffle_split (n_samples : nat) (test_size : Q)
  : result (nat * nat) :=
  if Qle_bool test_size 0 || Qle_bool 1 test_size
  then Raise (ValueError invalid_test_size)
  else
    let n_test :=
      Z.to_nat (Qceiling (test_size * inject_Z (Z.of_nat n_samples))) in
    let n_train := (n_samples - n_test)%nat in
    if decide (n_train = 0%nat) then Raise (ValueError empty_train_set)
    else Ok (n_train, n_test).

Section split.
(** [rng.permutation(n)] of the generator seeded with [random_state]. *)
Variable permutation : nat → list nat.

(** [ShuffleSplit._iter_indices], one split. *)
Definition _iter_indices (n_samples : nat) (test_size : Q)
  : result (list nat * list nat) :=
  '(n_train, n_test) ← _validate_shuffle_split n_samples test_size;
  let permutation := permutation n_samples in
  let ind_test := take n_test permutation in
  let ind_train := slice permutation n_test (n_test + n_train) in
  Ok (ind_train, ind_test).

(** [split(X, y, groups)] with [n_splits=1]: the groups are split, and the
    positions of the samples of each part are returned. *)
Definition split (test_size : Q) (groups : list Z)
  : result (list nat * list nat) :=
  let '(classes, group_indices) := unique groups in
  '(group_train, group_test) ← _iter_indices (length classes) test_size;
  let train := flatnonzero (isin group_indices group_train) in
  let test := flatnonzero (isin group_indices group_test) in
  Ok (train, test).

End split.

End GroupShuffleSplit.

(** ** spikebench/load_datasets.py *)

Module load_datasets.

(** A table of spike trains: the rows [(series, groups)]. *)
Abbreviation spikes := (list (string * Z)) (only parsing).

Section load_fcx1.
Variable permutation : nat → list nat.
(** [encode_spike_trains], whose normalizer is not part of these sources. *)
Context {R : Type}.
Variable encode_spike_trains :
  spikes → spikes → list pyfloat → list pyfloat → result R.

(** From [group_split = GroupShuffleSplit(...)] to the two frames. *)
Definition split_by_group (wake_spikes sleep_spikes : spikes) (test_size : Q)
  : result (spikes * spikes * list pyfloat * list pyfloat) :=
  let X := wake_spikes.*1 ++ sleep_spikes.*1 in
  let y := replicate (length wake_spikes) (Finite 1)
           ++ replicate (length sleep_spikes) zero in
  let groups := wake_spikes.*2 ++ sleep_spikes.*2 in
  '(train_index, test_index) ←
    GroupShuffleSplit.split permutation test_size groups;
  X_train ← np.take_indices X train_index;
  X_test ← np.take_indices X test_index;
  y_train ← np.take_indices y train_index;
  y_test ← np.take_indices y test_index;
  groups_train ← np.take_indices groups train_index;
  groups_test ← np.take_indices groups test_index;
  let X_train := zip X_train groups_train in
  let X_test := zip X_test groups_test in
  Ok (X_train, X_test, y_train, y_test).

(** [wake_spikes] and [sleep_spikes] are the tables the adapter reads. *)
Definition load_fcx1 (wake_spikes sleep_spikes : spikes) (test_size : Q)
  : result R :=
  '(X_train, X_test, y_train, y_test) ←
    split_by_group wake_spikes sleep_spikes test_size;
  encode_spike_trains X_train X_test y_train y_test.

End load_fcx1.

End load_datasets.

(** ** Vocabulary of the properties *)

(** The float of an integer literal. *)
Definition f (n : Z) : pyfloat := Finite (inject_Z n).

(** The windows the specification asks for: [max(0, floor((N-w)/s)+1)] of
    them, the [i]-th being [series[s*i : s*i+w]]. *)
Definition n_windows (N : nat) (w s : Z) : nat :=
  Z.to_nat (Z.max 0 ((Z.of_nat N - w) / s + 1)).

Definition contiguous_windows (a : list pyfloat) (w s : Z)
  : list (list pyfloat) :=
  map (fun i => slice a (Z.to_nat s * i) (Z.to_nat s * i + Z.to_nat w))
      (seq 0 (n_windows (length a) w s)).

Section series.
Context {L : Type}.
Variable self : TrainNormalizeTransform.t.
Variable d : option string.

(** What one series contributes: its parse handed to the Segmenter. *)
Definition series_windows (s : string)
  : result (option (list (list pyfloat))) :=
  a ← string_to_float_series s d;
  rolling_window a (window self) (step self).

Definition chunks (o : option (list (list pyfloat)))
  : list (list pyfloat) := default [] o.

(** The rows of the series from position [i] on, each with the label of
    its series. *)
Fixpoint labelled (y : list L) (i : nat)
    (os : list (option (list (list pyfloat))))
  : list (list pyfloat * L) :=
  match os with
  | [] => []
  | o :: os' =>
      match y !! i with
      | Some l => (fun row => (row, l)) <$> chunks o
      | None => []
      end ++ labelled y (S i) os'
  end.

(** The accumulator that holds [rows] above the seed: one-dimensional
    until the first stacking. *)
Definition acc_of (seed : list pyfloat) (rows : list (list pyfloat))
  : np.ndarray :=
  match rows with
  | [] => np.Array1 seed
  | _ => np.Array2 (seed :: rows)
  end.

End series.

(** The two ways to configure the sampling. *)
(** What the loop asks of a series that yields rows: a label at its
    position, and rows as wide as the seed. *)
Definition stackable {L : Type} (y : list L) (seed : list pyfloat) (i : nat)
    (os : list (option (list (list pyfloat)))) : Prop :=
  ∀ j m, os !! j = Some (Some m) →
         is_Some (y !! (i + j)%nat) ∧ np.width m = length seed.

(** The long table after the first [k] columns of [X]. *)
Definition long_table (X : list (list pyfloat)) (k : nat) : pd.DataFrame :=
  {| pd.index := k * length X;
     pd.columns :=
       [("id",
         concat ((fun _ => TsfreshVectorizeTransform.of_nat <$> seq 0 (length X))
                 <$> seq 0 k));
        ("time",
         concat ((fun t => replicate (length X) (TsfreshVectorizeTransform.of_nat t))
                 <$> seq 0 k));
        ("value",
         concat ((fun t => (fun row => default zero (row !! t)) <$> X)
                 <$> seq 0 k))] |}.

Definition no_sampling (w s : Z) : t :=
  {| window := w; step := s; n_samples := None |}.
Definition sampling (w s k : Z) : t :=
  {| window := w; step := s; n_samples := Some k |}.

(** A catalog for the example: the distribution features and some of
    tsfresh's other calculators, their parameters left out. *)
Definition catalog_example : gmap string utils.fc_parameters :=
  list_to_map ((fun key => (key, None)) <$>
    ["variance_larger_than_standard_deviation"; "has_duplicate_max";
     "has_duplicate_min"; "has_duplicate"; "sum_values"; "abs_energy";
     "mean_abs_change"; "mean_change"; "mean_second_derivative_central";
     "median"; "mean"; "length"; "standard_deviation"; "variance";
     "skewness"; "kurtosis"; "absolute_sum_of_changes";
     "longest_strike_below_mean"; "longest_strike_above_mean";
     "count_above_mean"; "count_below_mean"; "last_location_of_maximum";
     "first_location_of_maximum"; "last_location_of_minimum";
     "first_location_of_minimum"; "sample_entropy"; "maximum"; "minimum";
     "ratio_value_number_to_time_series_length";
     "time_reversal_asymmetry_statistic"; "c3"; "cid_ce";
     "symmetry_looking"; "large_standard_deviation"; "quantile";
     "autocorrelation"; "agg_autocorrelation"; "partial_autocorrelation";
     "number_cwt_peaks"; "number_peaks"; "binned_entropy";
     "index_mass_quantile"; "cwt_coefficients"; "spkt_welch_density";
     "ar_coefficient"; "change_quantiles"; "fft_coefficient";
     "fft_aggregated"; "value_count"; "range_count"; "approximate_entropy";
     "friedrich_coefficients"; "max_langevin_fixed_point"; "linear_trend";
     "agg_linear_trend"; "augmented_dickey_fuller"; "number_crossing_m";
     "energy_ratio_by_chunks"; "ratio_beyond_r_sigma"]).

(** The test [(std / (1e-9 + mean)).abs() > 0.2] evaluated over the
    rationals, without rounding: with [d = 1e-9 + mean] it is
    [0.2 * |d| < std], that is [0.04 * d^2 < var]. One instance of the
    binary64 test, for the examples; on their data binary64 decides alike. *)
Definition cv_exceeds_exact (fs : list Q) : bool :=
  let n := inject_Z (Z.of_nat (length fs)) in
  let mean := (foldr Qplus 0 fs / n)%Q in
  let var :=
    (foldr Qplus 0 (map (fun x => (x - mean) * (x - mean)) fs) / (n - 1))%Q in
  let d := ((1 # 1000000000) + mean)%Q in
  negb (Qle_bool var ((2 # 10) * (2 # 10) * (d * d))).

(** A table with a missing value and a constant column. *)
Definition table_example : pd.DataFrame :=
  {| pd.index := 3;
     pd.columns := [("a", [f 1; NaN; f 3]);
                    ("b", [f 5; f 5; f 5])] |}.

(** * Properties *)

(** ** The model on the scenarios of the specification *)

Example split_ws_ex : split "  1 2.5   3 " None = Ok ["1"; "2.5"; "3"].
Proof. reflexivity. Qed.
Example split_sep_ex : split "1,,2," (Some ",") = Ok ["1"; ""; "2"; ""].
Proof. reflexivity. Qed.
Example split_sep_ex2 : split "a<>b<><>" (Some "<>") = Ok ["a"; "b"; ""; ""].
Proof. reflexivity. Qed.
Example split_sep_overlap : split "aaa" (Some "aa") = Ok [""; "a"].
Proof. reflexivity. Qed.
Example float_ex1 : float " 1_0.5e1 " = Ok (Finite (105 # 1)).
Proof. reflexivity. Qed.
Example float_ex2 : float "-Inf" = Ok (Infinity true).
Proof. reflexivity. Qed.
Example float_ex3 : float "1 2" = Raise (ValueError could_not_convert_string_to_float).
Proof. reflexivity. Qed.
Example float_ex4 : float "" = Raise (ValueError could_not_convert_string_to_float).
Proof. reflexivity. Qed.
Example float_ex5 : float "1e" = Raise (ValueError could_not_convert_string_to_float).
Proof. reflexivity. Qed.
Example float_ex6 : float ".5" = Ok (Finite (5 # 10)).
Proof. reflexivity. Qed.

Example rolling_window_scenario1 :
  rolling_window (map f [1;2;3;4;5;6;7]) 3 2
  = Ok (Some [map f [1;2;3]; map f [3;4;5]; map f [5;6;7]]).
Proof. reflexivity. Qed.
Example rolling_window_scenario2 :
  rolling_window (map f [1;2;3;4;5;6;7]) 3 5 = Ok (Some [map f [1;2;3]]).
Proof. reflexivity. Qed.
Example transform_ex1 :
  transform {| window := 2; step := 2; n_samples := None |} (fun _ => 0%nat)
    [true; false] (Some ",") ["1,2,3,4"; "5,6"]
  = Ok ([map f [1;2]; map f [3;4]; map f [5;6]], [true; true; false]).
Proof. reflexivity. Qed.

Example arange_quantile :
  map Qred (utils.arange (1 # 10) 1 (1 # 10)) =
  [1 # 10; 1 # 5; 3 # 10; 2 # 5; 1 # 2; 3 # 5; 7 # 10; 4 # 5; 9 # 10]%Q.
Proof. reflexivity. Qed.

Example train_test_common_features_ex :
  utils.train_test_common_features pd.before_2_0
    {| pd.index := 2;
       pd.columns := [("a", [f 1; f 2]); ("b", [f 3; f 4])] |}
    {| pd.index := 1;
       pd.columns := [("b", [f 5]); ("c", [f 6])] |}
  = Ok ({| pd.index := 2; pd.columns := [("b", [f 3; f 4])] |},
        {| pd.index := 1; pd.columns := [("b", [f 5])] |}).
Proof. by vm_compute. Qed.

Example median_odd :
  tsfresh_utils.median [3; 1; 2]%Q = 2%Q.
Proof. reflexivity. Qed.
Example median_even :
  Qred (tsfresh_utils.median [4; 1; 3; 2]%Q) = (5 # 2)%Q.
Proof. reflexivity. Qed.

Example impute_ex :
  tsfresh_utils.impute table_example
  = {| pd.index := 3;
       pd.columns := [("a", [f 1; Finite (4 # 2); f 3]);
                      ("b", [f 5; f 5; f 5])] |}.
Proof. by vm_compute. Qed.

Example low_variance_ex :
  _low_variance_removal cv_exceeds_exact 0%nat {[ 0%nat := table_example ]}
  = Ok (1%nat,
        {[ 0%nat := table_example;
           1%nat := {| pd.index := 3;
                       pd.columns := [("a", [f 1; NaN; f 3])] |} ]}).
Proof. by vm_compute. Qed.

Example split_by_group_scenario :
  load_datasets.split_by_group (fun n => rev (seq 0 n))
    [("1,2", 7); ("3,4", 7)] [("5,6", 9)] (1 # 2)
  = Ok ([("1,2", 7); ("3,4", 7)], [("5,6", 9)],
        [Finite 1; Finite 1], [zero]).
Proof. by vm_compute. Qed.

(** ** The error monad *)

Lemma bind_Ok {A B} (r : result A) (k : A -> result B) (b : B) :
  r ≫= k = Ok b ↔ ∃ a, r = Ok a ∧ k a = Ok b.
Proof.
  destruct r as [a|e]; unfold mbind, result_bind; simpl.
  - split; [eauto | by intros (a' & [= <-] & ?)].
  - split; [done | by intros (a' & ? & ?)].
Qed.

Lemma bind_Raise {A B} (r : result A) (k : A -> result B) (e : exn) :
  r ≫= k = Raise e ↔ r = Raise e ∨ ∃ a, r = Ok a ∧ k a = Raise e.
Proof.
  destruct r as [a|e']; unfold mbind, result_bind; simpl.
  - split; [eauto | by intros [? | (a' & [= <-] & ?)]].
  - split; [intros [= ->]; auto | intros [[= ->] | (a' & ? & ?)]; [done | discriminate]].
Qed.

Lemma mapM_Ok_lookup {A B} (g : A -> result B) (l : list A) (k : list B) :
  mapM g l = Ok k ↔ Forall2 (fun x y => g x = Ok y) l k.
Proof.
  revert k. induction l as [|x l IH]; intros k; simpl.
  - split; [intros [= <-]; constructor | by inversion 1].
  - split.
    + intros (y & Hy & (k' & Hk' & [= <-])%bind_Ok)%bind_Ok.
      constructor; [done | by apply IH].
    + inversion 1 as [|? y ? k' Hy Hk']; subst.
      apply IH in Hk'. change (g x ≫= (λ y, mapM g l ≫= λ k, Ok (y :: k)) = Ok (y :: k')).
      by rewrite Hy; simpl; rewrite Hk'.
Qed.

Lemma mapM_Raise {A B} (g : A -> result B) (l : list A) (e : exn) :
  mapM g l = Raise e → ∃ x, x ∈ l ∧ g x = Raise e.
Proof.
  induction l as [|x l IH]; simpl; [done |].
  intros [Hx | (y & Hy & [Hl | (k & _ & [=])]%bind_Raise)]%bind_Raise.
  - exists x. split; [left | done].
  - destruct (IH Hl) as (x' & ? & ?). exists x'. split; [by right | done].
Qed.

Lemma mapM_all_Ok {A B} (g : A -> result B) (l : list A) :
  (∀ x, x ∈ l → ∃ y, g x = Ok y) → ∃ k, mapM g l = Ok k.
Proof.
  induction l as [|x l IH]; intros Hall; simpl; [by eexists |].
  destruct (Hall x) as [y Hy]; [left |].
  destruct IH as [k Hk]; [intros; apply Hall; by right |].
  exists (y :: k).
  change (g x ≫= (λ y, mapM g l ≫= λ k, Ok (y :: k)) = Ok (y :: k)).
  by rewrite Hy; simpl; rewrite Hk.
Qed.

(** *** Slices *)

Lemma length_slice {A} (l : list A) (start stop : nat) :
  (stop ≤ length l)%nat → length (slice l start stop) = (stop - start)%nat.
Proof. intros. unfold slice. rewrite length_take, length_drop. lia. Qed.

Lemma slice_to_roll {A} (a : list A) (k w : nat) :
  (k + w ≤ length a)%nat → (0 < w)%nat →
  slice_to (np.roll a (- Z.of_nat k)) (Z.of_nat w) = slice a k (k + w).
Proof.
  intros Hlen Hw. unfold slice_to, np.roll, slice.
  destruct a as [|x a]; [simpl in Hlen; lia |].
  set (l := x :: a) in *.
  rewrite Z.opp_involutive, Z.mod_small by lia.
  rewrite Nat2Z.id.
  destruct (Z.leb_spec 0 (Z.of_nat w)); [| lia].
  rewrite Nat2Z.id, take_app_le by (rewrite length_drop; lia).
  f_equal. lia.
Qed.

(** ** The Segmenter *)

Lemma n_windows_fit (N : nat) (w s : Z) (i : nat) :
  0 ≤ w → 0 < s → (i < n_windows N w s)%nat →
  (Z.to_nat s * i + Z.to_nat w ≤ N)%nat ∧ w ≤ Z.of_nat N.
Proof.
  unfold n_windows. intros Hw Hs Hi.
  assert (Hq : Z.of_nat i ≤ (Z.of_nat N - w) / s) by lia.
  pose proof (Z.mul_div_le (Z.of_nat N - w) s Hs) as Hle.
  assert (s * Z.of_nat i ≤ Z.of_nat N - w) by nia.
  assert (0 ≤ s * Z.of_nat i) by nia.
  split; [| lia].
  assert (Hsn : s = Z.of_nat (Z.to_nat s)) by lia.
  revert H H0. rewrite Hsn at 1 2. generalize (Z.to_nat s). intros sn ??.
  apply Nat2Z.inj_le. rewrite Nat2Z.inj_add, Nat2Z.inj_mul. lia.
Qed.

Lemma any_nonempty (m : list (list pyfloat)) : np.any m = true → m ≠ [].
Proof. by destruct m. Qed.

Lemma vstack_any (m : list (list pyfloat)) :
  np.any m = true → np.vstack m = Ok m.
Proof. by destruct m. Qed.

(** For a positive window and step the rows the code cuts are the contiguous
    windows; they are returned when one of their values is non-zero and
    replaced by [None] otherwise. *)
Lemma rolling_window_contiguous (a : list pyfloat) (w s : Z) :
  0 < w → 0 < s →
  rolling_window a w s =
    Ok (if np.any (contiguous_windows a w s)
        then Some (contiguous_windows a w s) else None).
Proof.
  intros Hw Hs. unfold rolling_window, floordiv.
  destruct (Z.eqb_spec s 0) as [-> | _]; [lia |].
  unfold mbind, result_bind; simpl.
  set (q := (Z.of_nat (length a) - w) / s).
  assert (Heq : map (λ index, slice_to (np.roll a (- s * index)) w)
                  (range (q + 1)) = contiguous_windows a w s).
  { unfold range, contiguous_windows. rewrite map_map.
    assert (Hn : Z.to_nat (q + 1) = n_windows (length a) w s)
      by (unfold n_windows; fold q; lia).
    rewrite Hn. apply map_ext_in. intros i Hi%in_seq.
    destruct (n_windows_fit (length a) w s i) as [Hfit _]; [lia | done | lia |].
    replace (- s * Z.of_nat i) with (- Z.of_nat (Z.to_nat s * i)) by lia.
    replace w with (Z.of_nat (Z.to_nat w)) at 1 by lia.
    apply slice_to_roll; lia. }
  rewrite Heq.
  destruct (np.any (contiguous_windows a w s)) eqn:Hany; [| done].
  by rewrite (vstack_any _ Hany).
Qed.

Lemma contiguous_windows_length (a : list pyfloat) (w s : Z) :
  0 ≤ w → 0 < s →
  Forall (fun row => length row = Z.to_nat w) (contiguous_windows a w s).
Proof.
  intros Hw Hs. unfold contiguous_windows. apply Forall_map, Forall_forall.
  intros i Hi%elem_of_seq. simpl.
  destruct (n_windows_fit (length a) w s i) as [Hfit _]; [done | done | lia |].
  rewrite length_slice; lia.
Qed.

(** The code raises in one case only, a zero step. *)
Lemma rolling_window_total (a : list pyfloat) (w s : Z) :
  s ≠ 0 → ∃ r, rolling_window a w s = Ok r.
Proof.
  intros Hs. unfold rolling_window, floordiv.
  destruct (Z.eqb_spec s 0) as [-> | _]; [done |].
  unfold mbind, result_bind; simpl.
  match goal with |- context [np.any ?m] =>
    destruct (np.any m) eqn:Hany; [rewrite (vstack_any _ Hany) |] end;
    by eexists.
Qed.

(** C1, with the input where the code departs from it. The claim: for a
    positive window [w] and step [s] the Segmenter returns exactly
    [max(0, floor((N-w)/s)+1)] windows, each of length [w], window [i] being
    [series[s*i : s*i+w]], and none without error when the count is not
    positive. The code cuts exactly these windows, but returns them only when
    one of their values is non-zero: the guard [split_chunks.any()] asks for
    a non-zero value where it means a non-empty array. On the series
    [0, 0, 0] with [w = 3], [s = 1] the claim gives the one window
    [[0, 0, 0]] and the code returns [None]. *)
Theorem rolling_window_drops_zero_series :
  (∀ a w s, 0 < w → 0 < s →
     rolling_window a w s =
       Ok (if np.any (contiguous_windows a w s)
           then Some (contiguous_windows a w s) else None) ∧
     length (contiguous_windows a w s) = n_windows (length a) w s ∧
     Forall (fun row => length row = Z.to_nat w) (contiguous_windows a w s)) ∧
  rolling_window [zero; zero; zero] 3 1 = Ok None ∧
  contiguous_windows [zero; zero; zero] 3 1 = [[zero; zero; zero]].
Proof.
  split; [| by vm_compute].
  intros a w s Hw Hs. split; [by apply rolling_window_contiguous |]. split.
  - unfold contiguous_windows. by rewrite length_map, length_seq.
  - apply contiguous_windows_length; lia.
Qed.

(** C6 as stated, refuted: the Segmenter does not fail whenever
    [window <= 0] or [step <= 0]. A zero window gives [None], a negative
    window or step gives rows, none raises. *)
Lemma rolling_window_no_validation :
  ¬ (∀ a w s, w ≤ 0 ∨ s ≤ 0 → raises (rolling_window a w s)).
Proof.
  intros H. destruct (H (map f [1; 2; 3]) 0 1) as [e He]; [lia |].
  vm_compute in He. discriminate.
Qed.

Example rolling_window_negative_window :
  rolling_window (map f [1; 2; 3]) (-1) 1
  = Ok (Some [map f [1; 2]; map f [2; 3]; map f [3; 1];
              map f [1; 2]; map f [2; 3]]).
Proof. reflexivity. Qed.

Example rolling_window_negative_step :
  rolling_window (map f [1; 2; 3]) 3 (-1) = Ok (Some [map f [1; 2; 3]]).
Proof. reflexivity. Qed.

(** C6, amended: the Segmenter validates neither argument. It raises exactly
    when [step = 0], and then the exception is the [ZeroDivisionError] of the
    floor division; for [window <= 0] or [step < 0] it returns. *)
Theorem rolling_window_raises_iff (a : list pyfloat) (w s : Z) (e : exn) :
  rolling_window a w s = Raise e ↔ s = 0 ∧ e = ZeroDivisionError.
Proof.
  split.
  - intros He. destruct (decide (s = 0)) as [-> | Hs].
    + unfold rolling_window, floordiv in He. simpl in He.
      by injection He as <-.
    + destruct (rolling_window_total a w s Hs) as [r Hr]. congruence.
  - intros [-> ->]. reflexivity.
Qed.

(** ** The passthrough parse *)

(** C7 as stated, refuted twice. With the empty string as delimiter the parse
    fails though no token is at fault ([str.split] itself raises); and a
    series written with [_] between its values, read with the whitespace
    delimiter, is returned as the single value 12 rather than raising. *)
Lemma string_to_float_series_delimiter_cases :
  ¬ (∀ s d, raises (string_to_float_series s d) ↔
            ∃ tokens, split s d = Ok tokens ∧
                      ∃ t, t ∈ tokens ∧ raises (float t)) ∧
  string_to_float_series "1_2" (Some "_") = Ok [f 1; f 2] ∧
  string_to_float_series "1_2" None = Ok [f 12].
Proof.
  split; [| by vm_compute].
  intros H. destruct (H "1" (Some "")) as [H1 _].
  destruct H1 as (tokens & Htok & _); [by eexists | discriminate].
Qed.

(** C7, amended: for a delimiter that is [None] or a non-empty string the
    parse returns [float] of each token of [str.split], in order and with no
    further transform, and it fails exactly when [float] rejects a token,
    with that [ValueError]. *)
Theorem string_to_float_series_tokens (s : string) (d : option string) :
  d ≠ Some "" →
  ∃ tokens, split s d = Ok tokens ∧
    (∀ v, string_to_float_series s d = Ok v ↔
          Forall2 (fun t x => float t = Ok x) tokens v) ∧
    (∀ e, string_to_float_series s d = Raise e ↔
          e = ValueError could_not_convert_string_to_float ∧
          ∃ t, t ∈ tokens ∧ float t = Raise e).
Proof.
  intros Hd.
  assert (∃ tokens, split s d = Ok tokens) as [tokens Htok].
  { unfold split. destruct d as [sep|]; [| by eexists].
    destruct (decide (sep = "")) as [-> | _]; [done | by eexists]. }
  exists tokens. split; [done |].
  assert (Hs : string_to_float_series s d = mapM float tokens)
    by (unfold string_to_float_series; by rewrite Htok).
  rewrite Hs. clear Hs.
  assert (Hfloat : ∀ t e, float t = Raise e →
                          e = ValueError could_not_convert_string_to_float).
  { intros t e. unfold float. by destruct float_of_chars; intros [=]. }
  split.
  - intros v. apply mapM_Ok_lookup.
  - intros e. split.
    + intros (t & Ht & He)%mapM_Raise. split; [by eapply Hfloat | eauto].
    + intros (-> & t & Ht & He).
      destruct (mapM float tokens) as [v | e'] eqn:Hm.
      * apply mapM_Ok_lookup in Hm.
        apply list_elem_of_lookup in Ht as [i Hi].
        destruct (Forall2_lookup_l _ _ _ _ _ Hm Hi) as (x & _ & Hx).
        congruence.
      * apply mapM_Raise in Hm as (t' & _ & He').
        f_equal. by eapply Hfloat.
Qed.

Lemma string_to_float_series_tokens_witness :
  ∃ tokens, split "1.5,2,x" (Some ",") = Ok tokens ∧
    (∀ v, string_to_float_series "1.5,2,x" (Some ",") = Ok v ↔
          Forall2 (fun t x => float t = Ok x) tokens v) ∧
    (∀ e, string_to_float_series "1.5,2,x" (Some ",") = Raise e ↔
          e = ValueError could_not_convert_string_to_float ∧
          ∃ t, t ∈ tokens ∧ float t = Raise e).
Proof. apply (string_to_float_series_tokens "1.5,2,x" (Some ",")). discriminate. Defined.

(** ** The Dataset Assembler *)

Section assembler.
Context {L : Type}.
Variable self : t.
Variable d : option string.

Lemma rolling_window_Some (a : list pyfloat) (w s : Z) m :
  rolling_window a w s = Ok (Some m) → m ≠ [].
Proof.
  unfold rolling_window.
  intros (q & _ & H)%bind_Ok. simpl in H.
  match type of H with context [np.any ?m'] =>
    destruct (np.any m') eqn:Hany; [| done];
    rewrite (vstack_any _ Hany) in H end.
  injection H as <-. by apply any_nonempty.
Qed.

Lemma series_windows_Some s m : series_windows self d s = Ok (Some m) → m ≠ [].
Proof.
  intros (a & _ & H)%bind_Ok. by eapply rolling_window_Some.
Qed.

Lemma transform_step_unfold (y : list L) nt tg i s :
  transform_step self y d (nt, tg) i s =
    o ← series_windows self d s;
    match o with
    | Some m =>
        nt' ← np.vstack2 nt m;
        label ← getitem y i;
        Ok (nt', tg ++ replicate (length m) label)
    | None => Ok (nt, tg)
    end.
Proof.
  unfold transform_step, series_windows.
  by destruct (string_to_float_series s d).
Qed.

Lemma vstack2_acc_of seed rows m nt' :
  m ≠ [] →
  np.vstack2 (acc_of seed rows) m = Ok nt' →
  nt' = acc_of seed (rows ++ m) ∧ np.width m = length seed.
Proof.
  intros Hm. unfold np.vstack2.
  assert (Hw : np.width (np.atleast_2d (acc_of seed rows)) = length seed)
    by (by destruct rows).
  rewrite Hw. case_decide as Heq; [| done]. intros [= <-]. split; [| done].
  destruct rows, m; done.
Qed.

Lemma transform_step_Ok (y : list L) seed rows tg i s nt' tg' :
  transform_step self y d (acc_of seed rows, tg) i s = Ok (nt', tg') →
  ∃ o, series_windows self d s = Ok o ∧
       nt' = acc_of seed (rows ++ chunks o) ∧
       tg' = tg ++ (snd <$> labelled y i [o]) ∧
       chunks o = fst <$> labelled y i [o].
Proof.
  rewrite transform_step_unfold.
  intros (o & Ho & H)%bind_Ok. exists o. split; [done |].
  destruct o as [m|]; simpl.
  - pose proof (series_windows_Some _ _ Ho) as Hm.
    apply bind_Ok in H as (nt1 & Hnt & H).
    apply bind_Ok in H as (label & Hl & [= <- <-]).
    apply vstack2_acc_of in Hnt as [-> _]; [| done].
    unfold getitem in Hl. destruct (y !! i) as [l|]; [| done].
    injection Hl as ->. rewrite !app_nil_r.
    rewrite <- !list_fmap_compose.
    split; [done |]. split.
    + f_equal. clear. induction m; simpl; by f_equal.
    + clear. induction m; simpl; by f_equal.
  - injection H as <- <-. rewrite !app_nil_r.
    destruct (y !! i); simpl; by rewrite ?app_nil_r.
Qed.

Lemma labelled_cons (y : list L) i o os :
  labelled y i (o :: os) = labelled y i [o] ++ labelled y (S i) os.
Proof. simpl. by rewrite app_nil_r. Qed.

Lemma transform_loop_Ok (y : list L) seed X :
  ∀ i rows tg nt' tg',
  transform_loop self y d i X (acc_of seed rows, tg) = Ok (nt', tg') →
  ∃ os, mapM (series_windows self d) X = Ok os ∧
        nt' = acc_of seed (rows ++ concat (chunks <$> os)) ∧
        tg' = tg ++ (snd <$> labelled y i os) ∧
        concat (chunks <$> os) = fst <$> labelled y i os.
Proof.
  induction X as [|s X IH]; intros i rows tg nt' tg'; simpl.
  - intros [= <- <-]. exists []. by rewrite !app_nil_r.
  - intros ([nt1 tg1] & Hstep & Hloop)%bind_Ok.
    apply transform_step_Ok in Hstep as (o & Ho & -> & -> & Hfst).
    apply IH in Hloop as (os & Hos & -> & -> & Hfst').
    exists (o :: os). split; [| split; [| split]].
    + rewrite Ho. simpl. by rewrite Hos.
    + by rewrite fmap_cons, concat_cons, app_assoc.
    + by rewrite (labelled_cons y i o os), fmap_app, app_assoc.
    + rewrite (labelled_cons y i o os), fmap_app, fmap_cons, concat_cons.
      by rewrite Hfst, Hfst'.
Qed.

Lemma labelled_elem (y : list L) os :
  ∀ i row l, (row, l) ∈ labelled y i os →
  ∃ j o, os !! j = Some o ∧ row ∈ chunks o ∧ y !! (i + j)%nat = Some l.
Proof.
  induction os as [|o os IH]; intros i row l; simpl.
  - by intros ?%elem_of_nil.
  - intros [Hin | Hin]%elem_of_app.
    + destruct (y !! i) as [l'|] eqn:Hy; [| by apply elem_of_nil in Hin].
      apply list_elem_of_fmap in Hin as (row' & [= -> ->] & Hrow).
      exists 0%nat, o. by rewrite Nat.add_0_r.
    + apply IH in Hin as (j & o' & Hj & Hrow & Hy).
      exists (S j), o'. by rewrite <- Nat.add_succ_comm.
Qed.

End assembler.

Section transform_facts.
Context {L : Type}.
Implicit Types (y tg : list L) (rows : list (list pyfloat)).

Lemma zeros_Ok n seed :
  np.zeros n = Ok seed ↔ 0 ≤ n ∧ seed = replicate (Z.to_nat n) zero.
Proof.
  unfold np.zeros. destruct (Z.ltb_spec n 0).
  - split; [done | lia].
  - split; [by intros [= <-] | by intros [_ ->]].
Qed.

Lemma take_indices_Ok {A} (m : list A) idx r :
  np.take_indices m idx = Ok r ↔ Forall2 (fun i x => m !! i = Some x) idx r.
Proof.
  unfold np.take_indices. rewrite mapM_Ok_lookup.
  assert (Hg : ∀ i x, getitem m i = Ok x ↔ m !! i = Some x).
  { intros i x. unfold getitem. destruct (m !! i); split; by intros [= ->]. }
  split; intros H; (eapply Forall2_impl; [exact H |]);
    intros i x; by apply Hg.
Qed.

Lemma take_indices_in_range {A} (m : list A) idx :
  Forall (fun i => (i < length m)%nat) idx →
  ∃ r, np.take_indices m idx = Ok r.
Proof.
  intros Hidx. apply mapM_all_Ok. intros i Hi.
  rewrite Forall_forall in Hidx. apply Hidx, lookup_lt_is_Some in Hi as [x Hx].
  exists x. unfold getitem. by rewrite Hx.
Qed.

Lemma random_choice_Ok draws (R : nat) (k : Z) :
  0 ≤ k → (0 < R)%nat →
  np.random_choice draws R k =
    Ok (map (fun j => (draws j mod R)%nat) (seq 0 (Z.to_nat k))).
Proof.
  intros Hk HR. unfold np.random_choice.
  rewrite bool_decide_eq_false_2 by lia. simpl.
  by destruct (Z.ltb_spec k 0); [lia |].
Qed.

(** The two ways out of the sampling block. *)
Lemma subsample_None self draws rows tg :
  n_samples self = None → subsample self draws rows tg = Ok (rows, tg).
Proof. unfold subsample. by intros ->. Qed.

Lemma subsample_Some self draws rows tg k rows' tg' :
  n_samples self = Some k →
  subsample self draws rows tg = Ok (rows', tg') →
  ∃ idx, np.random_choice draws (length rows) k = Ok idx ∧
         Forall2 (fun i x => rows !! i = Some x) idx rows' ∧
         Forall2 (fun i l => tg !! i = Some l) idx tg'.
Proof.
  unfold subsample. intros ->.
  intros (idx & Hidx & (r & Hr%take_indices_Ok
    & (t' & Ht%take_indices_Ok & [= <- <-])%bind_Ok)%bind_Ok)%bind_Ok.
  eauto.
Qed.

(** Sampling keeps rows and labels in step: the pairs that come out are
    pairs that went in. *)
Lemma subsample_pairs self draws rows tg rows' tg' :
  subsample self draws rows tg = Ok (rows', tg') →
  length rows = length tg →
  length rows' = length tg' ∧
  Forall (fun p => p ∈ zip rows tg) (zip rows' tg').
Proof.
  intros Hsub Hlen. destruct (n_samples self) as [k|] eqn:Hk.
  - destruct (subsample_Some _ _ _ _ _ _ _ Hk Hsub) as (idx & _ & Hr & Ht).
    split.
    { by rewrite <- (Forall2_length _ _ _ Hr), (Forall2_length _ _ _ Ht). }
    apply Forall_forall. intros [row l] [j Hj]%list_elem_of_lookup.
    apply lookup_zip_with_Some in Hj as (? & ? & [= <- <-] & Hrow & Hl).
    destruct (Forall2_lookup_r _ _ _ _ _ Hr Hrow) as (i & Hi & Hri).
    destruct (Forall2_lookup_r _ _ _ _ _ Ht Hl) as (i' & Hi' & Hti).
    assert (i' = i) as -> by congruence.
    apply list_elem_of_lookup. exists i.
    apply lookup_zip_with_Some. eauto.
  - rewrite subsample_None in Hsub by done. injection Hsub as <- <-.
    split; [done |]. by apply Forall_forall.
Qed.

(** The steps of a call that returns. *)
Lemma transform_Ok self draws y d X rows tg :
  transform self draws y d X = Ok (rows, tg) →
  ∃ os rows0 tg0,
    0 ≤ window self ∧
    transform_loop self y d 0 X
      (np.Array1 (replicate (Z.to_nat (window self)) zero), [])
      = Ok (np.Array2 (replicate (Z.to_nat (window self)) zero :: rows0),
            tg0) ∧
    mapM (series_windows self d) X = Ok os ∧
    rows0 = concat (chunks <$> os) ∧ rows0 ≠ [] ∧
    zip rows0 tg0 = labelled y 0 os ∧
    length rows0 = length tg0 ∧
    subsample self draws rows0 tg0 = Ok (rows, tg) ∧
    rows ≠ [].
Proof.
  unfold transform.
  intros (seed & [Hw ->]%zeros_Ok & H)%bind_Ok.
  apply bind_Ok in H as ([nt tg0] & Hloop & H).
  apply bind_Ok in H as (rows0 & Hdrop & H).
  apply bind_Ok in H as ([rows1 tg1] & Hsub & H).
  apply bind_Ok in H as (rows2 & Hv & [= <- <-]).
  pose proof Hloop as Hloop'.
  apply (transform_loop_Ok self d y _ X 0%nat []) in Hloop
    as (os & Hos & -> & -> & Hfst).
  simpl in *. exists os, rows0, (snd <$> labelled y 0 os).
  destruct (concat (chunks <$> os)) as [|r rs] eqn:Hc; [done |].
  simpl in Hdrop. injection Hdrop as <-.
  assert (rows2 = rows1) as ->
    by (destruct rows1; simpl in Hv; [done | congruence]).
  repeat split; try done.
  - rewrite Hfst. apply zip_fst_snd.
  - by rewrite Hfst, !length_fmap.
  - by destruct rows1.
Qed.

End transform_facts.

Section assembler_claims.
Context {L : Type}.
Implicit Types (y tg : list L) (rows : list (list pyfloat)).

Lemma transform_step_None self y d acc i s :
  series_windows self d s = Ok None →
  transform_step self y d acc i s = Ok acc.
Proof.
  intros Hs. destruct acc as [nt tg].
  by rewrite transform_step_unfold, Hs.
Qed.

Lemma transform_loop_all_None self y d X :
  Forall (fun s => series_windows self d s = Ok None) X →
  ∀ i acc, transform_loop self y d i X acc = Ok acc.
Proof.
  induction 1 as [|s X Hs _ IH]; intros i acc; simpl; [done |].
  rewrite transform_step_None by done. apply IH.
Qed.

Lemma transform_loop_app self y d X1 X2 :
  ∀ i acc,
  transform_loop self y d i (X1 ++ X2) acc =
    transform_loop self y d i X1 acc
    ≫= transform_loop self y d (i + length X1) X2.
Proof.
  induction X1 as [|s X1 IH]; intros i acc; simpl.
  - by rewrite Nat.add_0_r.
  - destruct (transform_step self y d acc i s) as [acc'|e]; simpl; [| done].
    rewrite IH. by rewrite Nat.add_succ_r.
Qed.

(** The loop reads [y] only at the positions of the series it visits. *)
Lemma transform_loop_labels self y1 y2 d X :
  ∀ i1 i2 acc,
  (∀ j, (j < length X)%nat → y1 !! (i1 + j)%nat = y2 !! (i2 + j)%nat) →
  transform_loop self y1 d i1 X acc = transform_loop self y2 d i2 X acc.
Proof.
  induction X as [|s X IH]; intros i1 i2 acc Hy; simpl; [done |].
  assert (Hstep : transform_step self y1 d acc i1 s
                  = transform_step self y2 d acc i2 s).
  { destruct acc as [nt tg]. rewrite !transform_step_unfold.
    unfold getitem. specialize (Hy 0%nat). rewrite !Nat.add_0_r in Hy.
    rewrite Hy by (simpl; lia). done. }
  rewrite Hstep.
  destruct (transform_step self y2 d acc i2 s) as [acc'|e]; simpl; [| done].
  apply IH. intros j Hj. rewrite !Nat.add_succ_comm.
  apply Hy. simpl. lia.
Qed.

Lemma transform_loop_self self1 self2 y d X :
  window self1 = window self2 → step self1 = step self2 →
  ∀ i acc,
  transform_loop self1 y d i X acc = transform_loop self2 y d i X acc.
Proof.
  intros Hw Hs. induction X as [|s X IH]; intros i acc; simpl; [done |].
  assert (Hstep : transform_step self1 y d acc i s
                  = transform_step self2 y d acc i s)
    by (unfold transform_step; by rewrite Hw, Hs).
  rewrite Hstep.
  by destruct (transform_step self2 y d acc i s) as [acc'|e]; simpl.
Qed.

(** C4, amended: a call that returns gives as many labels as rows (this
    transform returns no group vector); the seed row is removed by
    position, so that without sampling the rows are exactly the windows of
    the series, in order; and every row, sampled or not, is a window of
    some series [j] and carries the label [y[j]]. A window of the data
    that is itself all zero is kept like any other. *)
Theorem transform_rows_and_labels self draws y d X rows tg :
  transform self draws y d X = Ok (rows, tg) →
  length rows = length tg ∧
  (∃ os, mapM (series_windows self d) X = Ok os ∧
         (n_samples self = None → rows = concat (chunks <$> os))) ∧
  Forall (fun p =>
            ∃ j s a m,
              X !! j = Some s ∧ string_to_float_series s d = Ok a ∧
              rolling_window a (window self) (step self) = Ok (Some m) ∧
              p.1 ∈ m ∧ y !! j = Some p.2)
         (zip rows tg).
Proof.
  intros (os & rows0 & tg0 & _ & _ & Hos & Hrows0 & _ & Hzip & Hlen & Hsub & _)
    %transform_Ok.
  destruct (subsample_pairs _ _ _ _ _ _ Hsub Hlen) as [Hlen' Hpairs].
  split; [done |]. split.
  - exists os. split; [done |].
    intros Hn. rewrite subsample_None in Hsub by done. congruence.
  - eapply Forall_impl; [exact Hpairs |]. intros [row l] Hin.
    rewrite Hzip in Hin.
    apply labelled_elem in Hin as (j & o & Hj & Hrow & Hl).
    apply mapM_Ok_lookup in Hos.
    destruct (Forall2_lookup_r _ _ _ _ _ Hos Hj) as (s & Hs & Ho).
    destruct o as [m|]; [| by apply elem_of_nil in Hrow].
    apply bind_Ok in Ho as (a & Ha & Hm).
    exists j, s, a, m. by rewrite Nat.add_0_l in Hl.
Qed.

(** C5, amended: a series that yields no window leaves the aggregate as if
    it and its label were not there; and when no series yields a window the
    call fails, the exception being the [IndexError] of slicing the still
    one-dimensional seed with two indices. *)
Theorem zero_window_series self draws d :
  (∀ y1 y2 l X1 X2 s,
     series_windows self d s = Ok None → length y1 = length X1 →
     transform self draws (y1 ++ l :: y2) d (X1 ++ s :: X2)
     = transform self draws (y1 ++ y2) d (X1 ++ X2)) ∧
  (∀ y X,
     0 ≤ window self →
     Forall (fun s => series_windows self d s = Ok None) X →
     transform self draws y d X = Raise IndexError_too_many_indices).
Proof.
  split.
  - intros y1 y2 l X1 X2 s Hs Hlen. unfold transform.
    destruct (np.zeros (window self)) as [seed|e]; simpl; [| done].
    assert (Hloop : transform_loop self (y1 ++ l :: y2) d 0 (X1 ++ s :: X2)
                      (np.Array1 seed, [])
                    = transform_loop self (y1 ++ y2) d 0 (X1 ++ X2)
                      (np.Array1 seed, [])); [| by rewrite Hloop].
    rewrite !transform_loop_app. simpl.
    rewrite (transform_loop_labels self (y1 ++ l :: y2) (y1 ++ y2) d X1 0 0).
    2: { intros j Hj. simpl. rewrite !lookup_app_l by lia. done. }
    destruct (transform_loop self (y1 ++ y2) d 0 X1 (np.Array1 seed, []))
      as [acc|e]; simpl; [| done].
    rewrite transform_step_None by done. simpl.
    apply transform_loop_labels. intros j Hj.
    rewrite !lookup_app_r by lia.
    replace (S (length X1) + j - length y1)%nat with (S j) by lia.
    replace (length X1 + j - length y1)%nat with j by lia. done.
  - intros y X Hw Hall. unfold transform.
    destruct (np.zeros (window self)) as [seed|e] eqn:Hz; simpl.
    + by rewrite transform_loop_all_None.
    + unfold np.zeros in Hz. destruct (Z.ltb_spec (window self) 0); [lia | done].
Qed.

(** C2, amended: when the unsampled call returns [R] rows ([R >= 1], or it
    would not return), the call with [n_samples = k >= 1] returns exactly
    [k] rows, [k > R] included. Row [j] is the row at the [j]-th drawn
    index, drawn on its own below [R] (so with replacement), and label [j]
    is the label at that same index. *)
Theorem subsample_with_replacement w s (k : Z) draws y d X rows tg :
  transform {| window := w; step := s; n_samples := None |} draws y d X
    = Ok (rows, tg) →
  1 ≤ k →
  ∃ rows' tg',
    transform {| window := w; step := s; n_samples := Some k |} draws y d X
      = Ok (rows', tg') ∧
    length rows' = Z.to_nat k ∧ length tg' = Z.to_nat k ∧
    ∀ j, (j < Z.to_nat k)%nat →
      (draws j mod length rows < length rows)%nat ∧
      rows' !! j = rows !! (draws j mod length rows)%nat ∧
      tg' !! j = tg !! (draws j mod length rows)%nat.
Proof.
  intros (os & rows0 & tg0 & Hw & Hloop & _ & _ & Hne & _ & Hlen & Hsub & _)
    %transform_Ok Hk.
  rewrite subsample_None in Hsub by done. injection Hsub as <- <-.
  simpl in Hw, Hloop.
  assert (HR : (0 < length rows0)%nat) by (destruct rows0; simpl; [done | lia]).
  set (idx := map (fun j => (draws j mod length rows0)%nat)
                  (seq 0 (Z.to_nat k))).
  assert (Hidx : Forall (fun i => (i < length rows0)%nat) idx).
  { apply Forall_map, Forall_forall. intros j _. simpl.
    apply Nat.mod_upper_bound. lia. }
  destruct (take_indices_in_range rows0 idx Hidx) as [rows' Hrows'].
  destruct (take_indices_in_range tg0 idx) as [tg' Htg'];
    [by rewrite <- Hlen |].
  pose proof Hrows' as Hr%take_indices_Ok.
  pose proof Htg' as Ht%take_indices_Ok.
  assert (Hlr : length rows' = Z.to_nat k).
  { rewrite <- (Forall2_length _ _ _ Hr). unfold idx.
    by rewrite length_map, length_seq. }
  exists rows', tg'. split; [| split; [done | split]].
  - unfold transform. simpl.
    assert (Hz : np.zeros w = Ok (replicate (Z.to_nat w) zero))
      by (by apply zeros_Ok).
    rewrite Hz. simpl.
    rewrite (transform_loop_self _
               {| window := w; step := s; n_samples := None |}) by done.
    rewrite Hloop. simpl. unfold subsample. simpl. rewrite !drop_0.
    rewrite random_choice_Ok by lia. simpl. fold idx.
    rewrite Hrows'. simpl. rewrite Htg'. simpl.
    destruct rows'; [simpl in Hlr; lia | done].
  - rewrite <- (Forall2_length _ _ _ Ht). unfold idx.
    by rewrite length_map, length_seq.
  - intros j Hj.
    assert (Hij : idx !! j = Some (draws j mod length rows0)%nat).
    { unfold idx. rewrite list_lookup_fmap, lookup_seq_lt by done. done. }
    split; [apply Nat.mod_upper_bound; lia |].
    destruct (Forall2_lookup_l _ _ _ _ _ Hr Hij) as (x & -> & ->).
    by destruct (Forall2_lookup_l _ _ _ _ _ Ht Hij) as (l & -> & ->).
Qed.

End assembler_claims.

(** C2 as stated, refuted: with one row available and [n_samples = 2] the
    call does not fail; it returns the one row twice. *)
Lemma subsample_exceeding_rows :
  ¬ (∀ w s k draws (y : list bool) d X rows tg,
       transform (no_sampling w s) draws y d X = Ok (rows, tg) →
       Z.of_nat (length rows) < k →
       raises (transform (sampling w s k) draws y d X)) ∧
  transform (no_sampling 2 2) (fun _ => 0%nat) [true] None ["1 2"]
    = Ok ([[f 1; f 2]], [true]) ∧
  transform (sampling 2 2 2) (fun _ => 0%nat) [true] None ["1 2"]
    = Ok ([[f 1; f 2]; [f 1; f 2]], [true; true]).
Proof.
  split; [| by vm_compute].
  intros H.
  destruct (H 2 2 2 (fun _ => 0%nat) [true] None ["1 2"]
              [[f 1; f 2]] [true]) as [e He]; [by vm_compute | simpl; lia |].
  vm_compute in He. discriminate.
Qed.

Lemma subsample_with_replacement_witness :
  ∃ rows' tg',
    transform (sampling 2 2 3) (fun j => j) [true; false] (Some ",")
      ["1,2,3,4"; "5,6"] = Ok (rows', tg') ∧
    length rows' = 3%nat ∧ length tg' = 3%nat ∧
    ∀ j, (j < 3)%nat →
      (j mod 3 < 3)%nat ∧
      rows' !! j = [[f 1; f 2]; [f 3; f 4]; [f 5; f 6]] !! (j mod 3)%nat ∧
      tg' !! j = [true; true; false] !! (j mod 3)%nat.
Proof.
  apply (subsample_with_replacement 2 2 3 (fun j => j) [true; false]
           (Some ",") ["1,2,3,4"; "5,6"]
           [[f 1; f 2]; [f 3; f 4]; [f 5; f 6]] [true; true; false]).
  - reflexivity.
  - lia.
Defined.

(** C4 as stated, refuted: an output row can equal the all-zero seed row. The
    series [0 0 1 1] cut with window 2 and step 2 gives the rows [[0, 0]] and
    [[1, 1]]; the first is a genuine window and equals [np.zeros(2)]. *)
Lemma transform_keeps_zero_window :
  ¬ (∀ self draws (y : list bool) d X rows tg seed row,
       transform self draws y d X = Ok (rows, tg) →
       np.zeros (window self) = Ok seed →
       row ∈ rows → row ≠ seed) ∧
  transform (no_sampling 2 2) (fun _ => 0%nat) [true] None ["0 0 1 1"]
    = Ok ([[zero; zero]; [f 1; f 1]], [true; true]).
Proof.
  split; [| by vm_compute].
  intros H.
  apply (H (no_sampling 2 2) (fun _ => 0%nat) [true] None ["0 0 1 1"]
           [[zero; zero]; [f 1; f 1]] [true; true] [zero; zero] [zero; zero]);
    [by vm_compute | by vm_compute | by left | done].
Qed.

Lemma transform_rows_and_labels_witness :
  let rows := [[f 1; f 2]; [f 3; f 4]; [f 5; f 6]] in
  let self := no_sampling 2 2 in
  length rows = length [true; true; false] ∧
  (∃ os, mapM (series_windows self (Some ",")) ["1,2,3,4"; "5,6"] = Ok os ∧
         (n_samples self = None → rows = concat (chunks <$> os))) ∧
  Forall (fun p =>
            ∃ j s a m,
              ["1,2,3,4"; "5,6"] !! j = Some s ∧
              string_to_float_series s (Some ",") = Ok a ∧
              rolling_window a (window self) (step self) = Ok (Some m) ∧
              p.1 ∈ m ∧ [true; false] !! j = Some p.2)
         (zip rows [true; true; false]).
Proof.
  apply (transform_rows_and_labels (no_sampling 2 2) (fun _ => 0%nat)
           [true; false] (Some ",") ["1,2,3,4"; "5,6"]).
  reflexivity.
Defined.

(** C5 as stated, refuted on the kind of failure: when no series yields a
    window the call fails, but by the [IndexError] of [a[1:, :]] on a
    one-dimensional array, whether or not sampling was asked for; no check on
    the number of samples is involved. *)
Lemma transform_no_windows_index_error :
  transform (no_sampling 3 1) (fun _ => 0%nat) [true] None ["1 2"]
    = Raise IndexError_too_many_indices ∧
  transform (sampling 3 1 1) (fun _ => 0%nat) [true] None ["1 2"]
    = Raise IndexError_too_many_indices ∧
  transform (no_sampling 3 1) (fun _ => 0%nat) ([] : list bool) None []
    = Raise IndexError_too_many_indices.
Proof. by vm_compute. Qed.

Lemma zero_window_series_witness :
  transform (no_sampling 2 2) (fun _ => 0%nat) ([true] ++ false :: [true])
    None (["1 2"] ++ "7" :: ["3 4"])
  = transform (no_sampling 2 2) (fun _ => 0%nat) ([true] ++ [true])
      None (["1 2"] ++ ["3 4"]) ∧
  transform (no_sampling 3 1) (fun _ => 0%nat) [true; false] None ["1 2"; "7"]
  = Raise IndexError_too_many_indices.
Proof.
  split.
  - apply (proj1 (zero_window_series (no_sampling 2 2) (fun _ => 0%nat) None));
      reflexivity.
  - apply (proj2 (zero_window_series (no_sampling 3 1) (fun _ => 0%nat) None)).
    + simpl. lia.
    + repeat constructor.
Defined.

Example zero_window_series_skipped :
  transform (no_sampling 2 2) (fun _ => 0%nat) [true; false; true] None
    ["1 2"; "7"; "3 4"]
  = Ok ([[f 1; f 2]; [f 3; f 4]], [true; true]).
Proof. reflexivity. Qed.

(** ** The feature taxonomy *)

Section taxonomy.
Variable full : gmap string utils.fc_parameters.

Let get := TsfreshVectorizeTransform.get_feature_dict full.

Lemma get_feature_dict_distribution :
  get (Some "distribution_features") = utils.distribution_features_tsfresh_dict.
Proof.
  unfold get, TsfreshVectorizeTransform.get_feature_dict.
  cbn [list_to_map foldr uncurry].
  rewrite lookup_insert_ne by done. by rewrite lookup_insert_eq.
Qed.

Lemma get_feature_dict_temporal_dom :
  dom (get (Some "temporal_features"))
  = dom full ∖ dom utils.distribution_features_tsfresh_dict.
Proof.
  unfold get, TsfreshVectorizeTransform.get_feature_dict.
  cbn [list_to_map foldr uncurry].
  do 2 (rewrite lookup_insert_ne by done). rewrite lookup_insert_eq.
  cbn [default id]. apply set_eq. intros key.
  rewrite elem_of_dom. unfold is_Some.
  setoid_rewrite lookup_set_to_map; [| by intros ???? [= ->]].
  split.
  - by intros (x & y & Hy & [= -> _]).
  - intros Hkey. by exists (full !!! key), key.
Qed.


End taxonomy.


(** ** Common features of two tables *)

Lemma select_label_present (df : pd.DataFrame) (label : string) :
  label ∈ pd.columns_values df →
  pd.select_label df label
  = Ok (filter (fun c => c.1 = label) (pd.columns df)).
Proof.
  intros (c & -> & Hc)%list_elem_of_fmap. unfold pd.select_label.
  destruct (filter _ (pd.columns df)) eqn:Hf; [| done].
  assert (Hin : c ∈ filter (fun c' => c'.1 = c.1) (pd.columns df))
    by (by apply list_elem_of_filter).
  rewrite Hf in Hin. by apply elem_of_nil in Hin.
Qed.

Lemma loc_labels_present (df : pd.DataFrame) (labels : list string) :
  Forall (fun label => label ∈ pd.columns_values df) labels →
  ∃ df', pd.loc_labels df labels = Ok df' ∧
         pd.index df' = pd.index df ∧
         ∀ c, c ∈ pd.columns df' ↔ c ∈ pd.columns df ∧ c.1 ∈ labels.
Proof.
  intros Hall.
  assert (Hm : mapM (pd.select_label df) labels
               = Ok ((fun label => filter (fun c => c.1 = label)
                                          (pd.columns df)) <$> labels)).
  { induction Hall as [|label labels Hl _ IH]; simpl; [done |].
    rewrite select_label_present by done. simpl. by rewrite IH. }
  unfold pd.loc_labels. rewrite Hm. simpl.
  eexists. split; [done |]. split; [done |]. simpl. intros c.
  rewrite list_elem_of_join. split.
  - intros (cs & Hc & (label & -> & Hl)%list_elem_of_fmap).
    apply list_elem_of_filter in Hc as [Hc1 Hc]. by rewrite Hc1.
  - intros [Hc Hl]. eexists. split; [| by apply list_elem_of_fmap_2].
    by apply list_elem_of_filter.
Qed.

(** C10 as stated, refuted: with pandas 2.0 or later the set handed to
    [.loc] is refused, and the call fails on every pair of tables. *)
Lemma train_test_common_features_set_indexer :
  utils.train_test_common_features pd.from_2_0
    {| pd.index := 2;
       pd.columns := [("a", [f 1; f 2]); ("b", [f 3; f 4])] |}
    {| pd.index := 1;
       pd.columns := [("b", [f 5]); ("c", [f 6])] |}
  = Raise TypeError ∧
  ¬ (∀ pandas train_df test_df, ∃ train' test',
       utils.train_test_common_features pandas train_df test_df
       = Ok (train', test')).
Proof.
  split; [reflexivity |]. intros H.
  by destruct (H pd.from_2_0 table_example table_example) as (? & ? & ?).
Qed.

(** C10, amended: with a pandas before 2.0 both tables come back restricted
    to the columns whose label occurs in both; the two results carry the
    same set of labels, the intersection; each keeps its row index, and a
    column is in a result exactly when it is a column of the source, values
    unchanged, under a common label. With pandas 2.0 or later the call
    raises [TypeError], whatever the tables. *)
Theorem train_test_common_features_columns (pandas : pd.version)
    (train_df test_df : pd.DataFrame) :
  let common : gset string :=
    list_to_set (pd.columns_values train_df)
    ∩ list_to_set (pd.columns_values test_df) in
  match pandas with
  | pd.before_2_0 =>
      ∃ train' test',
        utils.train_test_common_features pandas train_df test_df
          = Ok (train', test') ∧
        list_to_set (pd.columns_values train') = common ∧
        list_to_set (pd.columns_values test') = common ∧
        pd.index train' = pd.index train_df ∧
        pd.index test' = pd.index test_df ∧
        (∀ c, c ∈ pd.columns train' ↔ c ∈ pd.columns train_df ∧ c.1 ∈ common) ∧
        (∀ c, c ∈ pd.columns test' ↔ c ∈ pd.columns test_df ∧ c.1 ∈ common)
  | pd.from_2_0 =>
      utils.train_test_common_features pandas train_df test_df
        = Raise TypeError
  end.
Proof.
  intros common. destruct pandas; [| reflexivity].
  unfold utils.train_test_common_features, pd.loc_set. fold common.
  assert (Hnames : ∀ df df' : pd.DataFrame,
            common ⊆ list_to_set (pd.columns_values df) →
            (∀ c, c ∈ pd.columns df' ↔
                  c ∈ pd.columns df ∧ c.1 ∈ elements common) →
            list_to_set (pd.columns_values df') = common
            ∧ ∀ c, c ∈ pd.columns df' ↔ c ∈ pd.columns df ∧ c.1 ∈ common).
  { intros df df' Hsub Hcols. split.
    - apply set_eq. intros label.
      rewrite elem_of_list_to_set. unfold pd.columns_values.
      rewrite list_elem_of_fmap. split.
      + intros (c & -> & [_ Hc]%Hcols). by apply elem_of_elements.
      + intros Hl. pose proof (Hsub _ Hl) as Hdf.
        apply elem_of_list_to_set, list_elem_of_fmap in Hdf as (c & -> & Hc).
        exists c. split; [done |]. apply Hcols. split; [done |].
        by apply elem_of_elements.
    - intros c. rewrite Hcols. by rewrite elem_of_elements. }
  destruct (loc_labels_present train_df (elements common))
    as (train' & -> & Hi1 & Hc1).
  { apply Forall_forall. intros label Hl%elem_of_elements.
    apply (elem_of_list_to_set (C:=gset string)).
    unfold common in Hl. by apply elem_of_intersection in Hl as [? ?]. }
  destruct (loc_labels_present test_df (elements common))
    as (test' & -> & Hi2 & Hc2).
  { apply Forall_forall. intros label Hl%elem_of_elements.
    apply (elem_of_list_to_set (C:=gset string)).
    unfold common in Hl. by apply elem_of_intersection in Hl as [? ?]. }
  exists train', test'. simpl.
  destruct (Hnames train_df train') as [? ?];
    [apply intersection_subseteq_l | done |].
  destruct (Hnames test_df test') as [? ?];
    [apply intersection_subseteq_r | done |].
  done.
Qed.

(** ** The pipeline steps and the caller's table *)

Import TsfreshFeaturePreprocessorPipeline.

Lemma alloc_spec (df : pd.DataFrame) (h : heap) :
  h !! (alloc df h).1 = None ∧ (alloc df h).2 = <[(alloc df h).1 := df]> h.
Proof.
  unfold alloc. simpl. split; [| done].
  apply not_elem_of_dom. apply is_fresh.
Qed.

(** Allocation leaves every object of the heap as it was. *)
Lemma alloc_frame (df : pd.DataFrame) (h : heap) (X : ref) (dfX : pd.DataFrame) :
  h !! X = Some dfX →
  (alloc df h).1 ≠ X ∧ (alloc df h).2 !! X = Some dfX ∧ h ⊆ (alloc df h).2.
Proof.
  intros HX. destruct (alloc_spec df h) as [Hfresh _].
  unfold alloc in *. simpl in *.
  assert (fresh (dom h) ≠ X) by congruence.
  split; [done |]. split.
  - by rewrite lookup_insert_ne.
  - by apply insert_subseteq.
Qed.

Lemma construct_pipeline_steps (float64_cv_exceeds : list Q → bool) (self : t)
    (name : string) (tr : DFTransform.t) :
  (name, Transformer tr) ∈ construct_pipeline float64_cv_exceeds self →
  (name = "select_features" ∧
   tr = {| DFTransform.func :=
             fun X => _select_features X (keep_features_list self);
           DFTransform.copy := false |}) ∨
  (name = "imputation" ∧
   tr = {| DFTransform.func := _tsfresh_imputation;
           DFTransform.copy := false |}) ∨
  (name = "low_var_removal" ∧
   tr = {| DFTransform.func := _low_variance_removal float64_cv_exceeds;
           DFTransform.copy := true |}).
Proof.
  unfold construct_pipeline.
  destruct (keep_features_list self), (impute self), (do_scaling self),
    (remove_low_variance self); simpl;
    rewrite ?elem_of_cons, ?elem_of_nil;
    intros H; repeat destruct H as [H | H]; try done;
    injection H as -> ->; auto.
Qed.

(** C8 as stated, refuted: the imputation step changes the caller's table and
    returns that very table. The table of the example has a NaN, which the
    step replaces in place. *)
Lemma imputation_step_mutates_input :
  ¬ (∀ float64_cv_exceeds self name tr (h : heap) X df out h',
       (name, Transformer tr) ∈ construct_pipeline float64_cv_exceeds self →
       h !! X = Some df →
       DFTransform.transform tr X h = Ok (out, h') →
       h' !! X = Some df ∧ out ≠ X).
Proof.
  intros H.
  destruct (H cv_exceeds_exact
              {| impute := true; do_scaling := false;
                 remove_low_variance := true; keep_features_list := None |}
              "imputation"
              {| DFTransform.func := _tsfresh_imputation;
                 DFTransform.copy := false |}
              {[ 0%nat := table_example ]} 0%nat table_example 0%nat
              {[ 0%nat := tsfresh_utils.impute table_example ]})
    as [_ Hne]; [by left | done | by vm_compute | done].
Qed.

(** C8, amended: of the steps the assembler builds, feature selection and
    low-variance removal return a newly allocated table and leave the
    caller's table, and every other table, as it was, low-variance removal
    filtering a copy; the imputation step, built with [copy=False], imputes
    the caller's table in place and returns it. (Scaling is appended as the
    class [StandardScaler] and is not a transform of the core.) *)
Theorem pipeline_steps_frame (float64_cv_exceeds : list Q → bool) (self : t)
    (name : string) (tr : DFTransform.t)
    (h : heap) (X : ref) (df : pd.DataFrame) (out : ref) (h' : heap) :
  (name, Transformer tr) ∈ construct_pipeline float64_cv_exceeds self →
  h !! X = Some df →
  DFTransform.transform tr X h = Ok (out, h') →
  (name = "imputation" →
     out = X ∧ h' = <[X := tsfresh_utils.impute df]> h) ∧
  (name ≠ "imputation" → out ≠ X ∧ h' !! X = Some df ∧ h ⊆ h').
Proof.
  intros Hstep HX Hrun.
  assert (HdfX : h !!! X = df) by (by apply lookup_total_correct).
  apply construct_pipeline_steps in Hstep
    as [[-> ->] | [[-> ->] | [-> ->]]];
    unfold DFTransform.transform in Hrun;
    cbn [DFTransform.copy DFTransform.func negb] in Hrun.
  - split; [done | intros _].
    unfold _select_features in Hrun.
    destruct (keep_features_list self) as [fl|]; [| done].
    apply bind_Ok in Hrun as (df' & _ & [= <- <-]).
    by apply (alloc_frame df' h X df).
  - split; [intros _ | done].
    unfold _tsfresh_imputation in Hrun. injection Hrun as <- <-.
    by rewrite HdfX.
  - split; [done | intros _].
    destruct (alloc (h !!! X) h) as [X_ h1] eqn:Hcopy.
    pose proof (alloc_frame (h !!! X) h X df HX) as (_ & HX1 & Hsub1).
    rewrite Hcopy in HX1, Hsub1. cbn [fst snd] in HX1, Hsub1.
    unfold _low_variance_removal in Hrun. injection Hrun as <- <-.
    match goal with |- context [<[_ := ?d]> h1] =>
      pose proof (alloc_frame d h1 X df HX1) as (Hne & HX2 & Hsub2) end.
    split; [done |]. split; [done |]. by etrans.
Qed.

Lemma pipeline_steps_frame_witness :
  let h : heap := {[ 0%nat := table_example ]} in
  let h' : heap :=
    {[ 0%nat := table_example; 1%nat := table_example;
       2%nat := {| pd.index := 3;
                   pd.columns := [("a", [f 1; NaN; f 3])] |} ]} in
  ("low_var_removal" = "imputation" →
     2%nat = 0%nat ∧ h' = <[0%nat := tsfresh_utils.impute table_example]> h) ∧
  ("low_var_removal" ≠ "imputation" →
     2%nat ≠ 0%nat ∧ h' !! 0%nat = Some table_example ∧ h ⊆ h').
Proof.
  intros h h'.
  apply (pipeline_steps_frame cv_exceeds_exact
           {| impute := true; do_scaling := false;
              remove_low_variance := true; keep_features_list := None |}
           "low_var_removal"
           {| DFTransform.func := _low_variance_removal cv_exceeds_exact;
              DFTransform.copy := true |}
           h 0%nat table_example 2%nat h').
  - simpl. right. left.
  - reflexivity.
  - vm_compute. reflexivity.
Defined.

(** ** The group-aware split *)

Lemma flatnonzero_elem (mask : list bool) (i : nat) :
  i ∈ GroupShuffleSplit.flatnonzero mask ↔ mask !! i = Some true.
Proof.
  unfold GroupShuffleSplit.flatnonzero. rewrite list_elem_of_bind. split.
  - intros ([j b] & Hi & [k Hk]%list_elem_of_lookup).
    rewrite list_lookup_imap in Hk.
    destruct (mask !! k) as [b'|] eqn:Hm; [| done].
    injection Hk as <- <-. destruct b'; [| by apply elem_of_nil in Hi].
    by apply list_elem_of_singleton in Hi as ->.
  - intros Hm. exists (i, true). split; [by apply list_elem_of_singleton |].
    apply list_elem_of_lookup. exists i.
    by rewrite list_lookup_imap, Hm.
Qed.

Lemma isin_lookup (a values : list nat) (i : nat) :
  GroupShuffleSplit.isin a values !! i = Some true ↔
  ∃ x, a !! i = Some x ∧ x ∈ values.
Proof.
  unfold GroupShuffleSplit.isin. rewrite list_lookup_fmap.
  destruct (a !! i) as [x|]; simpl.
  - split.
    + intros [= H%bool_decide_eq_true]. eauto.
    + intros (? & [= <-] & H). by rewrite bool_decide_eq_true_2.
  - split; [done | by intros (? & ? & ?)].
Qed.

(** Two stretches of a duplicate-free list that do not overlap share no
    element. *)
Lemma take_slice_disjoint (l : list nat) (n m x : nat) :
  NoDup l → x ∈ take n l → x ∈ slice l n (n + m) → False.
Proof.
  intros Hnd Ht Hs. rewrite <- (take_drop n l) in Hnd.
  apply NoDup_app in Hnd as (_ & Hdisj & _).
  apply (Hdisj x Ht). unfold slice in Hs.
  by apply (subseteq_take (n + m - n) (drop n l)).
Qed.

Section group_split.
Variable permutation : nat → list nat.
Hypothesis permutation_spec : ∀ n, permutation n ≡ₚ seq 0 n.

Lemma permutation_NoDup n : NoDup (permutation n).
Proof. rewrite permutation_spec. apply NoDup_seq. Qed.

(** The samples of one group all go to the same part. *)
Lemma split_positions_disjoint (test_size : Q) (groups : list Z) train test :
  GroupShuffleSplit.split permutation test_size groups = Ok (train, test) →
  ∀ i j g, groups !! i = Some g → groups !! j = Some g →
           i ∈ train → j ∈ test → False.
Proof.
  unfold GroupShuffleSplit.split, GroupShuffleSplit.unique.
  set (classes := merge_sort Z.le (remove_dups groups)).
  intros ([gt gte] & Hiter & [= <- <-])%bind_Ok.
  unfold GroupShuffleSplit._iter_indices in Hiter.
  apply bind_Ok in Hiter as ([n_train n_test] & _ & [= <- <-]).
  intros i j g Hi Hj Htr Hte.
  apply flatnonzero_elem, isin_lookup in Htr as (c & Hc & Hctr).
  apply flatnonzero_elem, isin_lookup in Hte as (c' & Hc' & Hcte).
  rewrite list_lookup_fmap in Hc, Hc'. rewrite Hi in Hc. rewrite Hj in Hc'.
  simpl in Hc, Hc'. assert (c' = c) as -> by congruence.
  eapply take_slice_disjoint; [apply permutation_NoDup | done..].
Qed.

(** Every entry has a class, a position in the sorted distinct values. *)
Lemma unique_class_lt (groups : list Z) (i c : nat) :
  (GroupShuffleSplit.unique groups).2 !! i = Some c →
  (c < length (GroupShuffleSplit.unique groups).1)%nat.
Proof.
  unfold GroupShuffleSplit.unique. simpl.
  set (classes := merge_sort Z.le (remove_dups groups)).
  rewrite list_lookup_fmap.
  destruct (groups !! i) as [g|] eqn:Hg; [| done]. simpl. intros [= <-].
  assert (Hin : g ∈ classes).
  { unfold classes. rewrite merge_sort_Permutation.
    apply elem_of_remove_dups. by eapply list_elem_of_lookup_2. }
  destruct (list_find_elem_of (fun c => c = g) classes g Hin eq_refl)
    as [[j x] Hfind].
  rewrite Hfind. simpl.
  apply list_find_Some in Hfind as (Hj & _ & _). by eapply lookup_lt_Some.
Qed.

(** Every sample goes to one of the two parts. *)
Lemma split_covers (test_size : Q) (groups : list Z) train test :
  GroupShuffleSplit.split permutation test_size groups = Ok (train, test) →
  ∀ i, (i < length groups)%nat → i ∈ train ∨ i ∈ test.
Proof.
  unfold GroupShuffleSplit.split.
  destruct (GroupShuffleSplit.unique groups) as [classes gi] eqn:Hu.
  intros ([gt gte] & Hiter & [= <- <-])%bind_Ok.
  unfold GroupShuffleSplit._iter_indices in Hiter.
  apply bind_Ok in Hiter as ([n_train n_test] & Hval & [= <- <-]).
  intros i Hi.
  assert (Hgi : gi = (GroupShuffleSplit.unique groups).2) by (by rewrite Hu).
  assert (Hcl : classes = (GroupShuffleSplit.unique groups).1) by (by rewrite Hu).
  assert (is_Some (gi !! i)) as [c Hc].
  { apply lookup_lt_is_Some. rewrite Hgi. unfold GroupShuffleSplit.unique.
    simpl. by rewrite length_fmap. }
  assert (Hlt : (c < length classes)%nat)
    by (rewrite Hcl; apply (unique_class_lt groups i); by rewrite <- Hgi).
  assert (Hn : (n_train = length classes - n_test)%nat).
  { unfold GroupShuffleSplit._validate_shuffle_split in Hval.
    destruct (_ || _); [done |]. case_decide; [done |].
    by injection Hval as <- <-. }
  assert (Hperm : c ∈ permutation (length classes))
    by (rewrite permutation_spec; apply elem_of_seq; lia).
  rewrite <- (take_drop n_test (permutation (length classes))) in Hperm.
  apply elem_of_app in Hperm as [Hte | Htr].
  - right. apply flatnonzero_elem, isin_lookup. eauto.
  - left. apply flatnonzero_elem, isin_lookup. exists c. split; [done |].
    unfold slice. rewrite take_ge; [done |].
    rewrite length_drop.
    assert (Hlen : length (permutation (length classes)) = length classes)
      by (by rewrite permutation_spec, length_seq).
    lia.
Qed.

Context {R : Type}.
Variable encode_spike_trains :
  load_datasets.spikes → load_datasets.spikes →
  list pyfloat → list pyfloat → result R.

(** The rows picked at [positions], zipped back into a frame, are whole rows
    of the table, found at those positions. *)
Lemma zip_take_indices (D : load_datasets.spikes) positions Xs gs :
  np.take_indices D.*1 positions = Ok Xs →
  np.take_indices D.*2 positions = Ok gs →
  Forall2 (fun i row => D !! i = Some row) positions (zip Xs gs).
Proof.
  intros HX%take_indices_Ok Hg%take_indices_Ok.
  apply Forall2_same_length_lookup. split.
  - rewrite length_zip_with.
    rewrite <- (Forall2_length _ _ _ HX), <- (Forall2_length _ _ _ Hg). lia.
  - intros j i row Hi Hrow.
    apply lookup_zip_with_Some in Hrow as (s & g & -> & Hs & Hgj).
    destruct (Forall2_lookup_l _ _ _ _ _ HX Hi) as (s' & Hs' & HDs).
    destruct (Forall2_lookup_l _ _ _ _ _ Hg Hi) as (g' & Hg' & HDg).
    rewrite list_lookup_fmap in HDs. rewrite list_lookup_fmap in HDg.
    destruct (D !! i) as [[s0 g0]|]; simplify_eq/=. done.
Qed.

(** C3: [load_fcx1] splits before it segments: what it hands to
    [encode_spike_trains] are two frames of whole rows [(series, groups)] of
    the data, every row in one of them, with as many labels as rows, and no
    group identifier occurs in both frames. The random permutation of the
    groups is any permutation. *)
Theorem load_fcx1_group_split wake_spikes sleep_spikes test_size (r : R) :
  load_datasets.load_fcx1 permutation encode_spike_trains
    wake_spikes sleep_spikes test_size = Ok r →
  ∃ X_train X_test y_train y_test,
    encode_spike_trains X_train X_test y_train y_test = Ok r ∧
    (list_to_set X_train.*2 : gset Z) ## list_to_set X_test.*2 ∧
    X_train ⊆ wake_spikes ++ sleep_spikes ∧
    X_test ⊆ wake_spikes ++ sleep_spikes ∧
    (∀ row, row ∈ wake_spikes ++ sleep_spikes →
            row ∈ X_train ∨ row ∈ X_test) ∧
    length y_train = length X_train ∧ length y_test = length X_test.
Proof.
  unfold load_datasets.load_fcx1.
  intros ([[[X_train X_test] y_train] y_test] & Hsplit & Henc)%bind_Ok.
  exists X_train, X_test, y_train, y_test. split; [done |].
  unfold load_datasets.split_by_group in Hsplit.
  rewrite <- !fmap_app in Hsplit. set (D := wake_spikes ++ sleep_spikes) in *.
  apply bind_Ok in Hsplit as ([train test] & Hidx & H).
  apply bind_Ok in H as (Xs & HXs & H).
  apply bind_Ok in H as (Xs' & HXs' & H).
  apply bind_Ok in H as (ys & Hys & H).
  apply bind_Ok in H as (ys' & Hys' & H).
  apply bind_Ok in H as (gs & Hgs & H).
  apply bind_Ok in H as (gs' & Hgs' & [= <- <- <- <-]).
  pose proof (zip_take_indices D train Xs gs HXs Hgs) as Htrain.
  pose proof (zip_take_indices D test Xs' gs' HXs' Hgs') as Htest.
  apply take_indices_Ok in Hys, Hys'.
  assert (Hrows : ∀ positions (F : load_datasets.spikes),
            Forall2 (fun i row => D !! i = Some row) positions F → F ⊆ D).
  { intros positions F HF row [j Hj]%list_elem_of_lookup.
    destruct (Forall2_lookup_r _ _ _ _ _ HF Hj) as (i & _ & Hi).
    by eapply list_elem_of_lookup_2. }
  split; [| split; [by eapply Hrows | split; [by eapply Hrows | split]]].
  - apply elem_of_disjoint. intros g Hg Hg'.
    apply elem_of_list_to_set, list_elem_of_fmap in Hg as ([s1 g1] & -> & Hr1).
    apply elem_of_list_to_set, list_elem_of_fmap in Hg' as ([s2 g2] & Heq & Hr2).
    simpl in Heq. subst g2.
    apply list_elem_of_lookup in Hr1 as [j1 Hj1].
    apply list_elem_of_lookup in Hr2 as [j2 Hj2].
    destruct (Forall2_lookup_r _ _ _ _ _ Htrain Hj1) as (i1 & Hi1 & HD1).
    destruct (Forall2_lookup_r _ _ _ _ _ Htest Hj2) as (i2 & Hi2 & HD2).
    eapply (split_positions_disjoint _ _ _ _ Hidx i1 i2 g1).
    + by rewrite list_lookup_fmap, HD1.
    + by rewrite list_lookup_fmap, HD2.
    + by eapply list_elem_of_lookup_2.
    + by eapply list_elem_of_lookup_2.
  - intros row [i Hi]%list_elem_of_lookup.
    assert (Hpicked : ∀ positions (F : list (string * Z)),
              Forall2 (fun i row => D !! i = Some row) positions F →
              i ∈ positions → row ∈ F).
    { intros positions F HF [j Hj]%list_elem_of_lookup.
      destruct (Forall2_lookup_l _ _ _ _ _ HF Hj) as (row' & Hrow' & HD).
      assert (row' = row) as -> by congruence.
      by eapply list_elem_of_lookup_2. }
    destruct (split_covers _ _ _ _ Hidx i) as [Htr | Hte].
    + rewrite length_fmap. by eapply lookup_lt_Some.
    + left. by eapply Hpicked.
    + right. by eapply Hpicked.
  - split.
    + rewrite <- (Forall2_length _ _ _ Hys). apply (Forall2_length _ _ _ Htrain).
    + rewrite <- (Forall2_length _ _ _ Hys'). apply (Forall2_length _ _ _ Htest).
Qed.

End group_split.

Lemma load_fcx1_group_split_witness :
  ∃ X_train X_test y_train y_test,
    Ok (X_train, X_test, y_train, y_test)
      = Ok ([("5,6", 9)], [("1,2", 7); ("3,4", 7)],
            [zero], [Finite 1; Finite 1]) ∧
    (list_to_set X_train.*2 : gset Z) ## list_to_set X_test.*2 ∧
    X_train ⊆ [("1,2", 7); ("3,4", 7)] ++ [("5,6", 9)] ∧
    X_test ⊆ [("1,2", 7); ("3,4", 7)] ++ [("5,6", 9)] ∧
    (∀ row, row ∈ [("1,2", 7); ("3,4", 7)] ++ [("5,6", 9)] →
            row ∈ X_train ∨ row ∈ X_test) ∧
    length y_train = length X_train ∧ length y_test = length X_test.
Proof.
  apply (load_fcx1_group_split (seq 0) (fun n => reflexivity (seq 0 n))
           (fun a b c e => Ok (a, b, c, e))
           [("1,2", 7); ("3,4", 7)] [("5,6", 9)] (1 # 2)).
  vm_compute. reflexivity.
Defined.

(** * Further properties *)

(** ** The Segmenter: how the windows lie in the series *)

Lemma slice_take_drop {A} (a : list A) (k w : nat) :
  slice a k (k + w) = take w (drop k a).
Proof. unfold slice. f_equal. lia. Qed.

Lemma contiguous_windows_lookup (a : list pyfloat) (w s : Z) (i : nat) row :
  contiguous_windows a w s !! i = Some row ↔
  (i < n_windows (length a) w s)%nat ∧
  row = take (Z.to_nat w) (drop (Z.to_nat s * i) a).
Proof.
  unfold contiguous_windows. rewrite list_lookup_fmap.
  destruct (seq 0 (n_windows (length a) w s) !! i) as [j|] eqn:Hj; simpl.
  - apply lookup_seq in Hj as [-> Hi]. simpl.
    rewrite slice_take_drop. split; [by intros [= <-] | by intros [_ ->]].
  - split; [done |]. intros [Hi _].
    by rewrite lookup_seq_lt in Hj.
Qed.

Lemma rolling_window_Some_contiguous (a : list pyfloat) (w s : Z) m :
  0 < w → 0 < s → rolling_window a w s = Ok (Some m) →
  m = contiguous_windows a w s.
Proof.
  intros Hw Hs. rewrite rolling_window_contiguous by done.
  destruct (np.any _); by intros [= <-].
Qed.

Lemma concat_tiles {A} (a : list A) (w n : nat) :
  concat (map (fun i => take w (drop (w * i) a)) (seq 0 n)) = take (w * n) a.
Proof.
  induction n as [|n IH].
  - by rewrite Nat.mul_0_r, take_0.
  - rewrite seq_S, map_app, concat_app, IH. simpl. rewrite app_nil_r.
    rewrite take_take_drop. f_equal. lia.
Qed.

(** X1: With [step = window] the windows tile the series: put end to end they
    are the series up to a tail shorter than one window, which is dropped. *)
Theorem rolling_window_tiles (a : list pyfloat) (w : Z) m :
  0 < w → rolling_window a w w = Ok (Some m) →
  concat m = take (Z.to_nat w * length m) a ∧
  (Z.to_nat w * length m ≤ length a < Z.to_nat w * (length m + 1))%nat.
Proof.
  intros Hw Hm. pose proof (rolling_window_Some _ _ _ _ Hm) as Hne.
  apply rolling_window_Some_contiguous in Hm as ->; [| done..].
  assert (Hlen : length (contiguous_windows a w w) = n_windows (length a) w w)
    by (unfold contiguous_windows; by rewrite length_map, length_seq).
  assert (Hpos : (0 < n_windows (length a) w w)%nat).
  { rewrite <- Hlen. destruct (contiguous_windows a w w); simpl; [done | lia]. }
  rewrite Hlen. split.
  - unfold contiguous_windows. rewrite <- concat_tiles. f_equal.
    apply map_ext. intros i. apply slice_take_drop.
  - unfold n_windows in *.
    pose proof (Z.mul_div_le (Z.of_nat (length a) - w) w Hw).
    pose proof (Z.mul_succ_div_gt (Z.of_nat (length a) - w) w Hw).
    set (q := (Z.of_nat (length a) - w) / w) in *.
    assert (Hq : 0 ≤ q + 1) by lia.
    rewrite Z.max_r by done.
    split; [apply Nat2Z.inj_le | apply Nat2Z.inj_lt];
      rewrite ?Nat2Z.inj_mul, ?Nat2Z.inj_add, !Z2Nat.id by lia; lia.
Qed.

Lemma rolling_window_tiles_witness :
  concat [map f [1; 2; 3]; map f [4; 5; 6]]
    = take 6 (map f [1; 2; 3; 4; 5; 6; 7]) ∧
  (6 ≤ 7 < 9)%nat.
Proof.
  apply (rolling_window_tiles (map f [1; 2; 3; 4; 5; 6; 7]) 3).
  - lia.
  - reflexivity.
Defined.

(** X2: With [step <= window] consecutive windows overlap: the first without
    its leading [step] values is the beginning of the next. *)
Theorem rolling_window_overlap (a : list pyfloat) (w s : Z) m (i : nat) r1 r2 :
  0 < s → s ≤ w → rolling_window a w s = Ok (Some m) →
  m !! i = Some r1 → m !! S i = Some r2 →
  drop (Z.to_nat s) r1 = take (Z.to_nat (w - s)) r2.
Proof.
  intros Hs Hsw Hm H1 H2.
  apply rolling_window_Some_contiguous in Hm as ->; [| lia | done].
  apply contiguous_windows_lookup in H1 as [_ ->].
  apply contiguous_windows_lookup in H2 as [_ ->].
  rewrite take_take, Nat.min_l by lia.
  replace (Z.to_nat w) with (Z.to_nat s + Z.to_nat (w - s))%nat by lia.
  rewrite <- take_drop_commute, drop_drop. do 2 f_equal. lia.
Qed.

Lemma rolling_window_overlap_witness :
  drop (Z.to_nat 2) (map f [1; 2; 3]) = take (Z.to_nat (3 - 2)) (map f [3; 4; 5]).
Proof.
  apply (rolling_window_overlap (map f [1; 2; 3; 4; 5; 6; 7]) 3 2
           [map f [1; 2; 3]; map f [3; 4; 5]; map f [5; 6; 7]] 0).
  - lia.
  - lia.
  - reflexivity.
  - reflexivity.
  - reflexivity.
Defined.

Lemma n_windows_mono (N N' : nat) (w s : Z) :
  0 < s → (N ≤ N')%nat → (n_windows N w s ≤ n_windows N' w s)%nat.
Proof.
  intros Hs HN. unfold n_windows.
  assert ((Z.of_nat N - w) / s ≤ (Z.of_nat N' - w) / s)
    by (apply Z.div_le_mono; lia).
  lia.
Qed.

(** X3: Windows are stable under appending: the windows of a series are the
    first windows of any longer series that starts with it. *)
Theorem rolling_window_prefix (a t : list pyfloat) (w s : Z) m :
  0 < w → 0 < s → rolling_window a w s = Ok (Some m) →
  ∃ m', rolling_window (a ++ t) w s = Ok (Some m') ∧ m `prefix_of` m'.
Proof.
  intros Hw Hs Hm. rewrite rolling_window_contiguous in Hm by done.
  destruct (np.any (contiguous_windows a w s)) eqn:Hany; [| done].
  injection Hm as <-.
  pose proof (n_windows_mono (length a) (length (a ++ t)) w s Hs) as Hn.
  rewrite length_app in Hn. specialize (Hn ltac:(lia)).
  assert (Hsplit : contiguous_windows (a ++ t) w s
            = contiguous_windows a w s
              ++ map (fun i => slice (a ++ t) (Z.to_nat s * i)
                                 (Z.to_nat s * i + Z.to_nat w))
                     (seq (n_windows (length a) w s)
                          (n_windows (length a + length t) w s
                           - n_windows (length a) w s))).
  { unfold contiguous_windows at 1. rewrite length_app.
    replace (n_windows (length a + length t) w s)
      with (n_windows (length a) w s
            + (n_windows (length a + length t) w s
               - n_windows (length a) w s))%nat at 1 by lia.
    rewrite seq_app, map_app. f_equal.
    apply map_ext_in. intros i Hi%in_seq.
    destruct (n_windows_fit (length a) w s i) as [Hfit _]; [lia | done | lia |].
    rewrite !slice_take_drop, drop_app_le by lia.
    apply take_app_le. rewrite length_drop. lia. }
  rewrite rolling_window_contiguous, Hsplit by done.
  unfold np.any in *. rewrite existsb_app, Hany. simpl.
  eexists. split; [done |]. by eexists.
Qed.

Lemma rolling_window_prefix_witness :
  ∃ m', rolling_window (map f [1; 2; 3; 4] ++ map f [5; 6]) 2 2 = Ok (Some m') ∧
        [map f [1; 2]; map f [3; 4]] `prefix_of` m'.
Proof.
  apply (rolling_window_prefix (map f [1; 2; 3; 4]) (map f [5; 6]) 2 2).
  - lia.
  - lia.
  - reflexivity.
Defined.

(** ** The passthrough parse: blanks and concatenation *)

Lemma split_whitespace_app (s1 s2 : string) (c : ascii) :
  isspace c = true →
  ∀ cur, split_whitespace cur (s1 ++ String c s2)
         = split_whitespace cur s1 ++ split_whitespace "" s2.
Proof.
  intros Hc. induction s1 as [|c1 s1 IH]; intros cur; simpl.
  - rewrite Hc. by destruct (decide (cur = "")).
  - destruct (isspace c1); [| apply IH].
    destruct (decide (cur = "")); [apply IH |].
    simpl. f_equal. apply IH.
Qed.

Lemma mapM_app {A B} (g : A → result B) (l1 l2 : list A) :
  mapM g (l1 ++ l2)
  = v1 ← mapM g l1; v2 ← mapM g l2; Ok (v1 ++ v2).
Proof.
  induction l1 as [|x l1 IH]; simpl.
  - by destruct (mapM g l2).
  - destruct (g x) as [y|e]; simpl; [| done]. rewrite IH.
    destruct (mapM g l1) as [v1|e]; simpl; [| done].
    by destruct (mapM g l2).
Qed.

(** X4: Read with the whitespace delimiter, two series written one after the
    other with a blank between them parse to the two parses one after the
    other, and fail exactly when one of the two fails. *)
Theorem string_to_float_series_app (s1 s2 : string) (c : ascii) :
  isspace c = true →
  string_to_float_series (s1 ++ String c s2) None
  = v1 ← string_to_float_series s1 None;
    v2 ← string_to_float_series s2 None;
    Ok (v1 ++ v2).
Proof.
  intros Hc. unfold string_to_float_series, split. simpl.
  rewrite (split_whitespace_app s1 s2 c Hc). apply mapM_app.
Qed.

Lemma string_to_float_series_app_witness :
  string_to_float_series ("1 2" ++ String " " "3.5") None
  = v1 ← string_to_float_series "1 2" None;
    v2 ← string_to_float_series "3.5" None;
    Ok (v1 ++ v2).
Proof.
  apply (string_to_float_series_app "1 2" "3.5" " "). reflexivity.
Defined.

Lemma split_whitespace_blank (s : string) :
  Forall (fun c => isspace c = true) (list_ascii_of_string s) →
  split_whitespace "" s = [].
Proof.
  induction s as [|c s IH]; simpl; [done |].
  intros [Hc Hs]%Forall_cons. rewrite Hc. simpl. by apply IH.
Qed.

(** X5: An empty or blank series: with the whitespace delimiter it parses to the
    empty vector; with any explicit delimiter the empty string fails, its
    one token being empty. *)
Theorem string_to_float_series_blank :
  (∀ s, Forall (fun c => isspace c = true) (list_ascii_of_string s) →
        string_to_float_series s None = Ok []) ∧
  (∀ sep, ∃ why, string_to_float_series "" (Some sep)
                 = Raise (ValueError why)).
Proof.
  split.
  - intros s Hs. unfold string_to_float_series, split.
    by rewrite split_whitespace_blank.
  - intros sep. unfold string_to_float_series, split.
    destruct (decide (sep = "")); by eexists.
Qed.

(** ** The Dataset Assembler: when it returns, and what *)

Section assembler_more.
Context {L : Type}.
Variable self : TrainNormalizeTransform.t.
Variable d : option string.
Implicit Types (y tg : list L) (rows : list (list pyfloat)).

Lemma transform_step_spec y seed rows tg i s res :
  transform_step self y d (acc_of seed rows, tg) i s = Ok res ↔
  ∃ o, series_windows self d s = Ok o ∧ stackable y seed i [o] ∧
       res = (acc_of seed (rows ++ chunks o), tg ++ (labelled y i [o]).*2).
Proof.
  rewrite transform_step_unfold. split.
  - intros (o & Ho & H)%bind_Ok. exists o. split; [done |].
    destruct o as [m|]; simpl.
    + pose proof (series_windows_Some _ _ _ _ Ho) as Hm.
      apply bind_Ok in H as (nt1 & Hnt & H).
      apply bind_Ok in H as (label & Hl & [= <-]).
      apply vstack2_acc_of in Hnt as [-> Hw]; [| done].
      unfold getitem in Hl. destruct (y !! i) as [l|] eqn:Hy; [| done].
      injection Hl as ->. split.
      * intros [|j] m' Hj; [| done]. injection Hj as <-.
        by rewrite Nat.add_0_r, Hy.
      * rewrite !app_nil_r, <- list_fmap_compose. do 2 f_equal.
        clear. induction m; simpl; by f_equal.
    + injection H as <-. split; [by intros [|j] m' Hj |].
      rewrite !app_nil_r. by destruct (y !! i); simpl; rewrite ?app_nil_r.
  - intros (o & Ho & Hst & ->). rewrite Ho. simpl.
    destruct o as [m|]; simpl.
    + pose proof (series_windows_Some _ _ _ _ Ho) as Hm.
      destruct (Hst 0%nat m eq_refl) as [[l Hl] Hw].
      rewrite Nat.add_0_r in Hl. rewrite Hl. simpl.
      unfold np.vstack2.
      assert (Hw' : np.width (np.atleast_2d (acc_of seed rows)) = np.width m)
        by (rewrite Hw; by destruct rows).
      rewrite decide_True by done. simpl. unfold getitem. rewrite Hl. simpl.
      rewrite !app_nil_r, <- list_fmap_compose. do 2 f_equal.
      * by destruct rows, m.
      * f_equal. clear. induction m; simpl; by f_equal.
    + rewrite !app_nil_r. by destruct (y !! i); simpl; rewrite ?app_nil_r.
Qed.

Lemma stackable_cons y seed i o os :
  stackable y seed i (o :: os) ↔
  stackable y seed i [o] ∧ stackable y seed (S i) os.
Proof.
  unfold stackable. split.
  - intros H. split.
    + intros [|j] m Hj; [| done]. by apply (H 0%nat).
    + intros j m Hj. rewrite Nat.add_succ_comm. by apply (H (S j)).
  - intros [H0 H1] [|j] m Hj; [by apply H0 |].
    rewrite <- Nat.add_succ_comm. by apply H1.
Qed.

(** The loop returns exactly when every series parses and every one that
    yields rows has a label and the width of the seed; it then holds the
    rows of the series, in order, above what it started with. *)
Lemma transform_loop_spec y seed X :
  ∀ i rows tg res,
  transform_loop self y d i X (acc_of seed rows, tg) = Ok res ↔
  ∃ os, mapM (series_windows self d) X = Ok os ∧ stackable y seed i os ∧
        res = (acc_of seed (rows ++ concat (chunks <$> os)),
               tg ++ (labelled y i os).*2).
Proof.
  induction X as [|s X IH]; intros i rows tg res.
  - simpl. split.
    + intros [= <-]. exists []. simpl. rewrite !app_nil_r.
      split; [done |]. split; [by intros j m Hj | done].
    + intros (os & [= <-] & _ & ->). simpl. by rewrite !app_nil_r.
  - split.
    + simpl. intros ([nt1 tg1] & Hstep & Hloop)%bind_Ok.
      apply transform_step_spec in Hstep as (o & Ho & Hst & [= -> ->]).
      apply IH in Hloop as (os & Hos & Hst' & ->).
      exists (o :: os). split; [by rewrite Ho; simpl; rewrite Hos |].
      split; [by apply stackable_cons |].
      rewrite (labelled_cons y i o os), fmap_cons, concat_cons. simpl.
      by rewrite !fmap_app, !app_nil_r, !app_assoc.
    + intros (os' & Hos' & Hst & ->). simpl in Hos'.
      apply bind_Ok in Hos' as (o & Ho & Hos').
      apply bind_Ok in Hos' as (os & Hos & [= <-]).
      apply stackable_cons in Hst as [Hst Hst'].
      assert (Hstep : transform_step self y d (acc_of seed rows, tg) i s
                = Ok (acc_of seed (rows ++ chunks o),
                      tg ++ (labelled y i [o]).*2))
        by (apply transform_step_spec; eauto).
      cbn [transform_loop]. rewrite Hstep. apply IH. exists os.
      split; [done |]. split; [done |].
      rewrite (labelled_cons y i o os), fmap_cons, concat_cons. simpl.
      by rewrite !fmap_app, !app_nil_r, !app_assoc.
Qed.

End assembler_more.

Lemma series_windows_width (self : TrainNormalizeTransform.t) d s m :
  0 < window self → 0 < TrainNormalizeTransform.step self →
  series_windows self d s = Ok (Some m) →
  Forall (fun row => length row = Z.to_nat (window self)) m ∧ m ≠ [].
Proof.
  intros Hw Hs (a & _ & Hm)%bind_Ok.
  pose proof (rolling_window_Some _ _ _ _ Hm) as Hne.
  apply rolling_window_Some_contiguous in Hm as ->; [| done | done].
  split; [| done]. apply contiguous_windows_length; lia.
Qed.

Lemma mapM_length {A B} (g : A → result B) l :
  ∀ v, mapM g l = Ok v → length v = length l.
Proof.
  induction l as [|x l IH]; intros v; simpl.
  - by intros [= <-].
  - intros (b & _ & (v' & Hv' & [= <-])%bind_Ok)%bind_Ok.
    simpl. f_equal. by apply IH.
Qed.

(** X6: Without sampling and for a positive window and step, the transform
    returns exactly when every series parses, every series that yields
    windows has a label at its position, and some series yields windows; it
    then returns the windows of the series in order, each with the label of
    its series. *)
Theorem transform_returns_iff {L : Type} (self : TrainNormalizeTransform.t)
    draws (y : list L) d X rows tg :
  0 < window self → 0 < TrainNormalizeTransform.step self → n_samples self = None →
  transform self draws y d X = Ok (rows, tg) ↔
  ∃ os, mapM (series_windows self d) X = Ok os ∧
        (∀ j m, os !! j = Some (Some m) → is_Some (y !! j)) ∧
        rows = concat (chunks <$> os) ∧ rows ≠ [] ∧
        tg = (labelled y 0 os).*2.
Proof.
  intros Hw Hs Hn. split.
  - intros H. apply transform_Ok in H
      as (os & rows0 & tg0 & _ & Hloop & Hos & -> & Hne & _ & _ & Hsub & _).
    rewrite subsample_None in Hsub by done. injection Hsub as <- <-.
    exists os. split; [done |].
    apply (transform_loop_spec self d y _ X 0%nat [] []) in Hloop
      as (os' & Hos' & Hst & Hres).
    rewrite Hos in Hos'. injection Hos' as <-.
    split; [intros j m Hj; by destruct (Hst j m Hj) |].
    split; [done |]. split; [done |].
    by injection Hres.
  - intros (os & Hos & Hy & -> & Hne & ->).
    unfold transform, np.zeros.
    destruct (Z.ltb_spec (window self) 0) as [|_]; [lia |]. simpl.
    set (seed := replicate (Z.to_nat (window self)) zero).
    assert (Hloop : transform_loop self y d 0 X (acc_of seed [], [])
              = Ok (acc_of seed ([] ++ concat (chunks <$> os)),
                    [] ++ (labelled y 0 os).*2)).
    { apply transform_loop_spec. exists os. split; [done |].
      split; [| done]. intros j m Hj. split; [by eapply Hy |].
      apply list_elem_of_lookup_2 in Hj.
      assert (Hs' : ∃ s, s ∈ X ∧ series_windows self d s = Ok (Some m)).
      { clear -Hos Hj. revert os Hos Hj.
        induction X as [|x X IH]; intros os; simpl.
        - intros [= <-] ?%elem_of_nil. done.
        - intros (o & Ho & (os' & Hos' & [= <-])%bind_Ok)%bind_Ok
            [<- | Hin]%elem_of_cons.
          + exists x. split; [left | done].
          + destruct (IH os' Hos' Hin) as (s & ? & ?).
            exists s. split; [by right | done]. }
      destruct Hs' as (s & _ & Hsw).
      apply series_windows_width in Hsw as [Hall Hm]; [| done | done].
      unfold np.width, seed. rewrite length_replicate.
      destruct m as [|row m]; [done |]. by inversion Hall. }
    simpl in Hloop. rewrite Hloop. simpl.
    destruct (concat (chunks <$> os)) as [|row rows] eqn:Hrows; [done |].
    simpl. rewrite subsample_None by done. done.
Qed.

Lemma transform_returns_iff_witness :
  transform (no_sampling 2 1) (fun _ => 0%nat) [true; false] (Some ",")
    ["1,2,3"; "4"] = Ok ([[f 1; f 2]; [f 2; f 3]], [true; true])
  ↔ ∃ os, mapM (series_windows (no_sampling 2 1) (Some ","))
            ["1,2,3"; "4"] = Ok os ∧
          (∀ j m, os !! j = Some (Some m) → is_Some ([true; false] !! j)) ∧
          [[f 1; f 2]; [f 2; f 3]] = concat (chunks <$> os) ∧
          [[f 1; f 2]; [f 2; f 3]] ≠ [] ∧
          [true; true] = (labelled [true; false] 0 os).*2.
Proof.
  apply (transform_returns_iff (no_sampling 2 1) (fun _ => 0%nat)
           [true; false] (Some ",") ["1,2,3"; "4"]); simpl; [lia | lia | done].
Defined.

(** X7: For a positive window and step, with or without sampling, every row
    the transform returns holds exactly [window] values. *)
Theorem transform_rectangular {L : Type} (self : TrainNormalizeTransform.t)
    draws (y : list L) d X rows tg :
  0 < window self → 0 < TrainNormalizeTransform.step self →
  transform self draws y d X = Ok (rows, tg) →
  Forall (fun row => length row = Z.to_nat (window self)) rows.
Proof.
  intros Hw Hs H. apply transform_Ok in H
    as (os & rows0 & tg0 & _ & _ & Hos & -> & _ & _ & _ & Hsub & _).
  assert (Hall : Forall (fun row => length row = Z.to_nat (window self))
                   (concat (chunks <$> os))).
  { clear Hsub. revert os Hos.
    induction X as [|x X IH]; intros os; simpl.
    - intros [= <-]. constructor.
    - intros (o & Ho & (os' & Hos' & [= <-])%bind_Ok)%bind_Ok.
      rewrite fmap_cons, concat_cons. apply Forall_app. split; [| by apply IH].
      destruct o as [m|]; [| constructor].
      by apply series_windows_width in Ho as [? _]. }
  destruct (n_samples self) as [k|] eqn:Hk.
  - apply (subsample_Some _ _ _ _ _ _ _ Hk) in Hsub as (idx & _ & Hrows & _).
    clear -Hall Hrows. induction Hrows as [|i row idx rows Hi _ IH];
      constructor; [| done].
    rewrite Forall_forall in Hall. apply Hall. by eapply list_elem_of_lookup_2.
  - rewrite subsample_None in Hsub by done. by injection Hsub as <- _.
Qed.

Lemma transform_rectangular_witness :
  Forall (fun row => length row = 2%nat) [[f 2; f 3]; [f 1; f 2]; [f 2; f 3]].
Proof.
  apply (transform_rectangular (sampling 2 1 3) (fun j => S j)
           [true; false] (Some ",") ["1,2,3"; "4"]
           [[f 2; f 3]; [f 1; f 2]; [f 2; f 3]] [true; true; true]);
    [simpl; lia | simpl; lia | reflexivity].
Defined.

Lemma transform_loop_raises {L : Type} (self : TrainNormalizeTransform.t)
    (y : list L) d s X :
  s ∈ X → raises (string_to_float_series s d) →
  ∀ i acc, raises (transform_loop self y d i X acc).
Proof.
  intros Hin [e He]. induction X as [|x X IH]; intros i [nt tg].
  - by apply elem_of_nil in Hin.
  - cbn [transform_loop].
    destruct (transform_step self y d (nt, tg) i x) as [acc'|e'] eqn:Hstep;
      [| by exists e'].
    apply elem_of_cons in Hin as [<- | Hin]; [| by apply IH].
    unfold transform_step in Hstep. by rewrite He in Hstep.
Qed.

(** X8: One series that does not parse makes the whole transform fail, wherever
    it stands in the column and whatever the other series are: no series is
    skipped on a parse error. *)
Theorem transform_unparsable_series {L : Type}
    (self : TrainNormalizeTransform.t) draws (y : list L) d s X :
  s ∈ X → raises (string_to_float_series s d) →
  raises (transform self draws y d X).
Proof.
  intros Hin Hs. unfold transform.
  destruct (np.zeros (window self)) as [seed|e]; [| by exists e]. simpl.
  destruct (transform_loop_raises self y d s X Hin Hs 0%nat (np.Array1 seed, []))
    as [e ->].
  by exists e.
Qed.

Lemma transform_unparsable_series_witness :
  raises (transform (no_sampling 2 1) (fun _ => 0%nat) [true; false; true]
            (Some ",") ["1,2,3"; "4,x"; "5,6"]).
Proof.
  apply (transform_unparsable_series (no_sampling 2 1) (fun _ => 0%nat)
           [true; false; true] (Some ",") "4,x").
  - apply list_elem_of_lookup. by exists 1%nat.
  - by eexists.
Defined.

(** X9: A sample count of zero or below never gives a dataset: whatever the
    data, the transform fails. *)
Theorem transform_nonpositive_n_samples {L : Type}
    (self : TrainNormalizeTransform.t) draws (y : list L) d X k :
  n_samples self = Some k → k ≤ 0 →
  raises (transform self draws y d X).
Proof.
  intros Hk Hle.
  destruct (transform self draws y d X) as [[rows tg]|e] eqn:H; [| by exists e].
  exfalso. apply transform_Ok in H
    as (os & rows0 & tg0 & _ & _ & _ & _ & Hne0 & _ & _ & Hsub & Hne).
  apply (subsample_Some _ _ _ _ _ _ _ Hk) in Hsub as (idx & Hidx & Hrows & _).
  unfold np.random_choice in Hidx.
  destruct rows0 as [|row0 rows0]; [done |]. simpl in Hidx.
  destruct (Z.ltb_spec k 0) as [|Hge]; [done |].
  assert (k = 0) as -> by lia. injection Hidx as <-.
  by inversion Hrows.
Qed.

Lemma transform_nonpositive_n_samples_witness :
  raises (transform (sampling 2 1 0) (fun _ => 0%nat) [true] (Some ",")
            ["1,2,3"]).
Proof.
  apply (transform_nonpositive_n_samples (sampling 2 1 0) (fun _ => 0%nat)
           [true] (Some ",") ["1,2,3"] 0); [reflexivity | lia].
Defined.

Lemma transform_loop_labels_yielding {L : Type}
    (self : TrainNormalizeTransform.t) (y y' : list L) d X :
  ∀ i acc,
  (∀ j s m, X !! j = Some s → series_windows self d s = Ok (Some m) →
            y !! (i + j)%nat = y' !! (i + j)%nat) →
  transform_loop self y d i X acc = transform_loop self y' d i X acc.
Proof.
  induction X as [|x X IH]; intros i [nt tg] Hy; [done |].
  cbn [transform_loop].
  assert (Hstep : transform_step self y d (nt, tg) i x
                  = transform_step self y' d (nt, tg) i x).
  { rewrite !transform_step_unfold.
    destruct (series_windows self d x) as [[m|]|e] eqn:Hx; [| done | done].
    simpl. unfold getitem.
    specialize (Hy 0%nat x m eq_refl Hx). rewrite Nat.add_0_r in Hy.
    by rewrite Hy. }
  rewrite Hstep.
  destruct (transform_step self y' d (nt, tg) i x) as [acc'|e]; [| done].
  simpl. apply IH. intros j s m Hj Hs.
  rewrite Nat.add_succ_comm. by apply (Hy (S j) s m).
Qed.

(** X10: Labels are read only at the positions of series that yield windows:
    two label vectors that agree there give the same result, whatever they
    hold (or lack) at the positions of the series that yield none. *)
Theorem transform_labels_yielding {L : Type}
    (self : TrainNormalizeTransform.t) draws (y y' : list L) d X :
  (∀ j s m, X !! j = Some s → series_windows self d s = Ok (Some m) →
            y !! j = y' !! j) →
  transform self draws y d X = transform self draws y' d X.
Proof.
  intros Hy. unfold transform.
  destruct (np.zeros (window self)) as [seed|e]; [| done]. simpl.
  by rewrite (transform_loop_labels_yielding self y y' d X 0%nat
                (np.Array1 seed, []) Hy).
Qed.

Lemma transform_labels_yielding_witness :
  transform (no_sampling 2 2) (fun _ => 0%nat) [true; false; true] None
    ["1 2"; "7"; "3 4"]
  = transform (no_sampling 2 2) (fun _ => 0%nat) [true; true; true] None
      ["1 2"; "7"; "3 4"].
Proof.
  apply (transform_labels_yielding (no_sampling 2 2) (fun _ => 0%nat)
           [true; false; true] [true; true; true] None ["1 2"; "7"; "3 4"]).
  intros [|[|[|j]]] s m Hj Hs; try done.
  injection Hj as <-. by vm_compute in Hs.
Defined.

(** X11: Without sampling the transform of two datasets put end to end is the
    two results put end to end, when the first dataset has one label per
    series. *)
Theorem transform_app {L : Type} (self : TrainNormalizeTransform.t)
    draws (y1 y2 : list L) d X1 X2 r1 t1 r2 t2 :
  n_samples self = None → length y1 = length X1 →
  transform self draws y1 d X1 = Ok (r1, t1) →
  transform self draws y2 d X2 = Ok (r2, t2) →
  transform self draws (y1 ++ y2) d (X1 ++ X2) = Ok (r1 ++ r2, t1 ++ t2).
Proof.
  intros Hn Hlen H1 H2.
  apply transform_Ok in H1
    as (os1 & r1' & t1' & Hw & Hl1 & _ & _ & Hne1 & _ & _ & Hsub1 & _).
  apply transform_Ok in H2
    as (os2 & r2' & t2' & _ & Hl2 & _ & _ & Hne2 & _ & _ & Hsub2 & _).
  rewrite subsample_None in Hsub1, Hsub2 by done.
  injection Hsub1 as -> ->. injection Hsub2 as -> ->.
  set (seed := replicate (Z.to_nat (window self)) zero) in *.
  unfold transform, np.zeros.
  destruct (Z.ltb_spec (window self) 0) as [|_]; [lia |]. simpl. fold seed.
  rewrite transform_loop_app.
  rewrite (transform_loop_labels self (y1 ++ y2) y1 d X1 0 0).
  2:{ intros j Hj. simpl. apply lookup_app_l. lia. }
  rewrite Hl1. simpl.
  rewrite (transform_loop_labels self (y1 ++ y2) y2 d X2 (length X1) 0).
  2:{ intros j Hj. simpl. rewrite lookup_app_r by lia. f_equal. lia. }
  apply (transform_loop_spec self d y2 seed X2 0%nat [] []) in Hl2
    as (os & Hos & Hst & Hres).
  assert (Hr2 : concat (chunks <$> os) = r2 ∧ (labelled y2 0 os).*2 = t2).
  { destruct r2; [done |]. simpl in Hres.
    destruct (concat (chunks <$> os)); [done |]. by injection Hres as <- <-. }
  destruct Hr2 as [Hr2 Ht2].
  assert (Hl : transform_loop self y2 d 0 X2 (acc_of seed r1, t1)
               = Ok (acc_of seed (r1 ++ r2), t1 ++ t2)).
  { apply transform_loop_spec. exists os. by rewrite Hr2, Ht2. }
  destruct r1 as [|row r1]; [done |]. simpl in Hl. rewrite Hl. simpl.
  by rewrite subsample_None.
Qed.

Lemma transform_app_witness :
  transform (no_sampling 2 2) (fun _ => 0%nat) ([true] ++ [false; false]) None
    (["1 2 3 4"] ++ ["5"; "6 7"])
  = Ok ([[f 1; f 2]; [f 3; f 4]] ++ [[f 6; f 7]], [true; true] ++ [false]).
Proof.
  apply (transform_app (no_sampling 2 2) (fun _ => 0%nat) [true] [false; false]
           None ["1 2 3 4"] ["5"; "6 7"]); reflexivity.
Defined.

(** ** The long table handed to tsfresh *)

Lemma length_concat_blocks {A} (g : nat → list A) (R n : nat) :
  (∀ t, length (g t) = R) →
  length (concat (g <$> seq 0 n)) = (n * R)%nat.
Proof.
  intros Hg. induction n as [|n IH]; [done |].
  rewrite seq_S, fmap_app, concat_app, length_app, IH. simpl.
  rewrite app_nil_r, Hg. lia.
Qed.

Lemma lookup_concat_blocks {A} (g : nat → list A) (R n t i : nat) :
  (∀ t, length (g t) = R) → (t < n)%nat → (i < R)%nat →
  concat (g <$> seq 0 n) !! (t * R + i)%nat = g t !! i.
Proof.
  intros Hg Ht Hi. induction n as [|n IH]; [lia |].
  rewrite seq_S, fmap_app, concat_app. simpl. rewrite app_nil_r.
  pose proof (length_concat_blocks g R n Hg) as Hlen.
  destruct (decide (t < n)%nat) as [Hlt | Hge].
  - rewrite lookup_app_l by nia. by apply IH.
  - assert (t = n) as -> by lia.
    rewrite lookup_app_r by lia. f_equal. lia.
Qed.

Section tsfresh_format.
Import TsfreshVectorizeTransform.
Variable X : list (list pyfloat).
Hypothesis rectangular : Forall (fun row => length row = np.width X) X.

Lemma column_rectangular (t : nat) :
  (t < np.width X)%nat →
  np.column X t = Ok ((fun row => default zero (row !! t)) <$> X).
Proof.
  intros Ht. unfold np.column. apply mapM_Ok_lookup.
  apply Forall2_fmap_r, Forall_Forall2_diag.
  eapply Forall_impl; [apply rectangular |]. intros row Hrow. simpl in Hrow.
  unfold compose, getitem.
  destruct (lookup_lt_is_Some_2 row t) as [v ->]; [lia | done].
Qed.

Lemma format_step_long_table (k : nat) :
  (k < np.width X)%nat →
  format_step X (long_table X k) k = Ok (long_table X (S k)).
Proof.
  intros Hk. unfold format_step. rewrite column_rectangular by done.
  unfold long_table. rewrite !seq_S, !fmap_app, !concat_app.
  unfold pd.concat2. simpl. rewrite !app_nil_r. do 2 f_equal. lia.
Qed.

Lemma format_loop_long_table (n : nat) :
  ∀ k, (k + n ≤ np.width X)%nat →
  format_loop X (seq k n) (long_table X k) = Ok (long_table X (k + n)).
Proof.
  induction n as [|n IH]; intros k Hk; simpl.
  - by rewrite Nat.add_0_r.
  - rewrite format_step_long_table by lia. simpl.
    rewrite IH by lia. do 2 f_equal. lia.
Qed.

(** X12: For a two-dimensional array of [R] rows and [C] columns the long table
    has the columns id, time and value and [R * C] rows, one per cell,
    column after column: row [t * R + i] holds the row number [i] as id, the
    column number [t] as time and the cell [X[i, t]] as value. *)
Theorem transform_to_tsfresh_format_cells :
  ∃ ids times values,
    transform_to_tsfresh_format X
    = Ok {| pd.index := np.width X * length X;
            pd.columns := [("id", ids); ("time", times); ("value", values)] |} ∧
    length ids = (np.width X * length X)%nat ∧
    length times = (np.width X * length X)%nat ∧
    length values = (np.width X * length X)%nat ∧
    ∀ i t row v, X !! i = Some row → row !! t = Some v →
      ids !! (t * length X + i)%nat = Some (of_nat i) ∧
      times !! (t * length X + i)%nat = Some (of_nat t) ∧
      values !! (t * length X + i)%nat = Some v.
Proof.
  do 3 eexists. split.
  { unfold transform_to_tsfresh_format.
    apply (format_loop_long_table (np.width X) 0%nat). lia. }
  split; [apply length_concat_blocks; intros; by rewrite length_fmap, length_seq |].
  split; [apply length_concat_blocks; intros; by rewrite length_replicate |].
  split; [apply length_concat_blocks; intros; by rewrite length_fmap |].
  intros i t row v Hi Ht.
  assert (Hlt : (i < length X)%nat) by (by eapply lookup_lt_Some).
  assert (Hwt : (t < np.width X)%nat).
  { rewrite Forall_forall in rectangular.
    rewrite <- (rectangular row) by (by eapply list_elem_of_lookup_2).
    by eapply lookup_lt_Some. }
  split; [| split].
  - rewrite (lookup_concat_blocks _ (length X)); [| | done | done].
    + rewrite list_lookup_fmap, lookup_seq_lt by done. done.
    + intros. by rewrite length_fmap, length_seq.
  - rewrite (lookup_concat_blocks _ (length X)); [| | done | done].
    + by rewrite lookup_replicate_2.
    + intros. by rewrite length_replicate.
  - rewrite (lookup_concat_blocks _ (length X)); [| | done | done].
    + by rewrite list_lookup_fmap, Hi; simpl; rewrite Ht.
    + intros. by rewrite length_fmap.
Qed.

End tsfresh_format.

Lemma transform_to_tsfresh_format_cells_witness :
  let X := [[f 1; f 2]; [f 3; f 4]; [f 5; f 6]] in
  ∃ ids times values,
    TsfreshVectorizeTransform.transform_to_tsfresh_format X
    = Ok {| pd.index := np.width X * length X;
            pd.columns := [("id", ids); ("time", times); ("value", values)] |} ∧
    length ids = (np.width X * length X)%nat ∧
    length times = (np.width X * length X)%nat ∧
    length values = (np.width X * length X)%nat ∧
    ∀ i t row v, X !! i = Some row → row !! t = Some v →
      ids !! (t * length X + i)%nat
        = Some (TsfreshVectorizeTransform.of_nat i) ∧
      times !! (t * length X + i)%nat
        = Some (TsfreshVectorizeTransform.of_nat t) ∧
      values !! (t * length X + i)%nat = Some v.
Proof.
  intros X. apply (transform_to_tsfresh_format_cells X).
  repeat constructor.
Defined.

(** ** The feature sets by name *)

(** X13: [temporal_features] takes its parameters from the catalog: it maps a
    name of the catalog that is no distribution feature to the catalog's own
    parameters for it, and holds no other name. *)
Theorem temporal_features_lookup (full : gmap string utils.fc_parameters)
    (key : string) :
  TsfreshVectorizeTransform.get_feature_dict full (Some "temporal_features")
    !! key
  = if decide (key ∈ dom utils.distribution_features_tsfresh_dict)
    then None else full !! key.
Proof.
  unfold TsfreshVectorizeTransform.get_feature_dict.
  cbn [list_to_map foldr uncurry].
  do 2 (rewrite lookup_insert_ne by done). rewrite lookup_insert_eq.
  cbn [default id].
  generalize (dom utils.distribution_features_tsfresh_dict). intros D.
  destruct (decide (key ∈ D)) as [HD | HD].
  - apply eq_None_not_Some. intros [x Hx].
    apply lookup_set_to_map in Hx as (key' & [_ HnD]%elem_of_difference & [= -> _]);
      [done | by intros ???? [= ->]].
  - destruct (full !! key) as [x|] eqn:Hkey.
    + apply lookup_set_to_map; [by intros ???? [= ->] |].
      exists key. split.
      * apply elem_of_difference. split; [by apply elem_of_dom | done].
      * f_equal. by rewrite (lookup_total_correct _ _ _ Hkey).
    + apply eq_None_not_Some. intros [x Hx].
      apply lookup_set_to_map in Hx as (key' & [HF _]%elem_of_difference & [= -> _]);
        [| by intros ???? [= ->]].
      apply elem_of_dom in HF as [? ?]. congruence.
Qed.

(** X14: A feature-set name that is none of the three known ones, like no name
    at all, gives the full catalog; nothing is raised. *)
Theorem get_feature_dict_unknown_name (full : gmap string utils.fc_parameters)
    (name : string) :
  name ∉ ["simple_baseline"; "distribution_features"; "temporal_features"] →
  TsfreshVectorizeTransform.get_feature_dict full (Some name)
  = TsfreshVectorizeTransform.get_feature_dict full None.
Proof.
  intros Hname. unfold TsfreshVectorizeTransform.get_feature_dict.
  cbn [list_to_map foldr uncurry].
  rewrite !not_elem_of_cons in Hname. destruct Hname as (H1 & H2 & H3 & _).
  do 3 (rewrite lookup_insert_ne by done). by rewrite lookup_empty.
Qed.

Lemma get_feature_dict_unknown_name_witness :
  TsfreshVectorizeTransform.get_feature_dict catalog_example
    (Some "temporal")
  = TsfreshVectorizeTransform.get_feature_dict catalog_example None.
Proof.
  apply (get_feature_dict_unknown_name catalog_example "temporal").
  apply (bool_decide_unpack _). vm_compute. exact I.
Defined.

(** X15: Whatever the catalog, every name of [simple_baseline] is a distribution
    feature, so none of them is a temporal feature. *)
Theorem simple_baseline_names (full : gmap string utils.fc_parameters) :
  dom (TsfreshVectorizeTransform.get_feature_dict full (Some "simple_baseline"))
    ⊆ dom (TsfreshVectorizeTransform.get_feature_dict full
             (Some "distribution_features")) ∧
  dom (TsfreshVectorizeTransform.get_feature_dict full (Some "simple_baseline"))
    ## dom (TsfreshVectorizeTransform.get_feature_dict full
              (Some "temporal_features")).
Proof.
  rewrite get_feature_dict_temporal_dom, get_feature_dict_distribution.
  assert (Hsub :
    dom (TsfreshVectorizeTransform.get_feature_dict full (Some "simple_baseline"))
    ⊆ dom utils.distribution_features_tsfresh_dict).
  { unfold TsfreshVectorizeTransform.get_feature_dict.
    cbn [list_to_map foldr uncurry]. rewrite lookup_insert_eq. cbn [default id].
    apply (bool_decide_unpack _). vm_compute. exact I. }
  split; [done |].
  apply elem_of_disjoint. intros key Hs [_ HnD]%elem_of_difference.
  by apply HnD, Hsub.
Qed.

(** ** The steps of the preprocessing pipeline *)

(** X16: The steps always come in the order selection, imputation, scaling,
    low-variance removal, each at most once, and each is there exactly when
    its option asks for it. *)
Theorem construct_pipeline_order (float64_cv_exceeds : list Q → bool)
    (self : TsfreshFeaturePreprocessorPipeline.t) :
  (construct_pipeline float64_cv_exceeds self).*1
    `sublist_of` ["select_features"; "imputation"; "standard_scaling";
                  "low_var_removal"] ∧
  ("select_features" ∈ (construct_pipeline float64_cv_exceeds self).*1
     ↔ is_Some (keep_features_list self)) ∧
  ("imputation" ∈ (construct_pipeline float64_cv_exceeds self).*1
     ↔ impute self = true) ∧
  ("standard_scaling" ∈ (construct_pipeline float64_cv_exceeds self).*1
     ↔ do_scaling self = true) ∧
  ("low_var_removal" ∈ (construct_pipeline float64_cv_exceeds self).*1
     ↔ remove_low_variance self = true).
Proof.
  unfold construct_pipeline.
  destruct (keep_features_list self), (impute self), (do_scaling self),
    (remove_low_variance self); simpl;
    (split; [repeat first [apply sublist_nil | apply sublist_skip
                           | apply sublist_cons] |]);
    rewrite ?elem_of_cons, ?elem_of_nil, ?is_Some_alt;
    repeat split; intros; try done; try tauto;
    repeat match goal with H : _ ∨ _ |- _ => destruct H end; try done; auto.
Qed.

Lemma select_label_Ok (df : pd.DataFrame) (label : string) cs :
  pd.select_label df label = Ok cs ↔
  label ∈ pd.columns_values df ∧
  cs = filter (fun c => c.1 = label) (pd.columns df).
Proof.
  split.
  - unfold pd.select_label.
    destruct (filter _ (pd.columns df)) as [|c cs'] eqn:Hf; [done |].
    intros [= <-]. split; [| done].
    assert (Hc : c ∈ filter (fun c' => c'.1 = label) (pd.columns df))
      by (rewrite Hf; left).
    apply list_elem_of_filter in Hc as [<- Hc].
    by apply list_elem_of_fmap_2.
  - intros [Hl ->]. by apply select_label_present.
Qed.

Lemma select_label_Raise (df : pd.DataFrame) (label : string) e :
  pd.select_label df label = Raise e →
  e = KeyError label ∧ label ∉ pd.columns_values df.
Proof.
  intros He. split.
  - unfold pd.select_label in He.
    destruct (filter _ (pd.columns df)); [by injection He | done].
  - intros Hl. by rewrite (select_label_present _ _ Hl) in He.
Qed.

(** [loc_labels] returns exactly when every label is in the table. *)
Lemma loc_labels_Ok (df : pd.DataFrame) (labels : list string) df' :
  pd.loc_labels df labels = Ok df' ↔
  Forall (fun label => label ∈ pd.columns_values df) labels ∧
  df' = {| pd.index := pd.index df;
           pd.columns := mjoin ((fun label =>
                                   filter (fun c => c.1 = label) (pd.columns df))
                                <$> labels) |}.
Proof.
  unfold pd.loc_labels. split.
  - intros (cs & Hcs & [= <-])%bind_Ok.
    apply mapM_Ok_lookup in Hcs.
    induction Hcs as [|label c labels cs Hc _ IH]; [done |].
    apply select_label_Ok in Hc as [Hl ->]. destruct IH as [Hall Heq].
    split; [by constructor |]. simpl. do 2 f_equal. by injection Heq.
  - intros [Hall ->].
    assert (Hm : mapM (pd.select_label df) labels
                 = Ok ((fun label => filter (fun c => c.1 = label)
                                            (pd.columns df)) <$> labels)).
    { induction Hall as [|label labels Hl _ IH]; simpl; [done |].
      rewrite select_label_present by done. simpl. by rewrite IH. }
    by rewrite Hm.
Qed.

Lemma filter_label_NoDup (cols : list (string * list pyfloat)) (label : string) :
  NoDup cols.*1 → label ∈ cols.*1 →
  (filter (fun c => c.1 = label) cols).*1 = [label].
Proof.
  induction cols as [|[l v] cols IH]; simpl.
  - by intros _ ?%elem_of_nil.
  - intros [Hl Hnd]%NoDup_cons Hin. rewrite filter_cons. simpl.
    destruct (decide (l = label)) as [-> | Hne].
    + simpl. f_equal.
      assert (Hnil : filter (fun c : string * list pyfloat => c.1 = label) cols = []).
      { destruct (filter _ cols) as [|c cs] eqn:Hf; [done |]. exfalso.
        assert (Hc : c ∈ filter (fun c : string * list pyfloat => c.1 = label)
                           cols) by (rewrite Hf; left).
        apply list_elem_of_filter in Hc as [Hc Hin'].
        apply Hl. rewrite <- Hc. by apply list_elem_of_fmap_2. }
      by rewrite Hnil.
    + apply IH; [done |]. apply elem_of_cons in Hin as [-> | Hin]; done.
Qed.

(** X17: Feature selection returns exactly when every asked label is a column
    of the table. It then leaves a new table over the same rows whose
    columns, for a table with distinct labels, are the asked ones in the
    asked order; otherwise it fails with the [KeyError] of a label that is
    asked and missing. Called without a list, it fails on [X.columns.value]. *)
Theorem select_features_labels (X : ref) (h : heap) (df : pd.DataFrame)
    (feature_list : list string) :
  h !! X = Some df →
  (Forall (fun label => label ∈ pd.columns_values df) feature_list →
   ∃ out df',
     _select_features X (Some feature_list) h = Ok (out, <[out := df']> h) ∧
     h !! out = None ∧
     pd.index df' = pd.index df ∧
     (NoDup (pd.columns_values df) → pd.columns_values df' = feature_list)) ∧
  (¬ Forall (fun label => label ∈ pd.columns_values df) feature_list →
   ∃ label,
     _select_features X (Some feature_list) h = Raise (KeyError label) ∧
     label ∈ feature_list ∧ label ∉ pd.columns_values df) ∧
  _select_features X None h = Raise AttributeError.
Proof.
  intros HX. assert (HdfX : h !!! X = df) by (by apply lookup_total_correct).
  unfold _select_features. rewrite HdfX. split; [| split; [| done]].
  - intros Hall.
    rewrite (proj2 (loc_labels_Ok df feature_list _) (conj Hall eq_refl)).
    unfold alloc. simpl. eexists _, _. split; [reflexivity |].
    split; [apply not_elem_of_dom, is_fresh |]. split; [done |].
    intros Hnd. unfold pd.columns_values. simpl.
    clear -Hall Hnd. induction Hall as [|label labels Hl _ IH]; [done |].
    simpl. rewrite fmap_app, (filter_label_NoDup _ _ Hnd Hl).
    simpl. f_equal. exact IH.
  - intros Hnot.
    destruct (pd.loc_labels df feature_list) as [df'|e] eqn:Hloc.
    + by apply loc_labels_Ok in Hloc as [? _].
    + unfold pd.loc_labels in Hloc.
      destruct (mapM (pd.select_label df) feature_list) as [cs|e'] eqn:Hm;
        [done |].
      injection Hloc as ->.
      apply mapM_Raise in Hm as (label & Hin & [-> Hmiss]%select_label_Raise).
      by exists label.
Qed.

Lemma select_features_labels_witness :
  ∃ out df',
    _select_features 0%nat (Some ["b"; "a"]) {[0%nat := table_example]}
      = Ok (out, <[out := df']> {[0%nat := table_example]}) ∧
    ({[0%nat := table_example]} : gmap nat pd.DataFrame) !! out = None ∧
    pd.index df' = pd.index table_example ∧
    (NoDup (pd.columns_values table_example) →
     pd.columns_values df' = ["b"; "a"]).
Proof.
  refine (proj1 (select_features_labels 0%nat {[0%nat := table_example]}
                   table_example ["b"; "a"] _) _).
  - vm_compute. reflexivity.
  - repeat constructor; apply (bool_decide_unpack _); vm_compute; exact I.
Defined.





(** ** Common features, taken twice *)

Lemma filter_label_label (cols : list (string * list pyfloat)) (l l' : string) :
  filter (fun c => c.1 = l) (filter (fun c => c.1 = l') cols)
  = if decide (l = l') then filter (fun c => c.1 = l) cols else [].
Proof.
  induction cols as [|c cols IH].
  - by destruct (decide (l = l')).
  - rewrite (filter_cons (fun c => c.1 = l')), (filter_cons (fun c => c.1 = l)).
    destruct (decide (c.1 = l')) as [Hc | Hc].
    + rewrite filter_cons, IH. repeat case_decide; congruence.
    + rewrite IH. repeat case_decide; congruence.
Qed.

Lemma filter_label_loc (cols : list (string * list pyfloat))
    (labels : list string) (l : string) :
  NoDup labels →
  filter (fun c => c.1 = l)
    (mjoin ((fun l' => filter (fun c => c.1 = l') cols) <$> labels))
  = if decide (l ∈ labels) then filter (fun c => c.1 = l) cols else [].
Proof.
  induction labels as [|l' labels IH].
  - intros _. destruct (decide (l ∈ [])) as [?%elem_of_nil | _]; done.
  - intros [Hl' Hnd]%NoDup_cons. rewrite fmap_cons.
    change (mjoin (?x :: ?xs)) with (x ++ mjoin xs).
    rewrite filter_app, filter_label_label, (IH Hnd).
    destruct (decide (l = l')) as [Heq | Hne];
      destruct (decide (l ∈ labels)) as [Hin | Hin];
      destruct (decide (l ∈ l' :: labels)) as [Hin' | Hin'];
      rewrite ?app_nil_r; simpl; try done; exfalso;
      first [ by (subst; apply Hl')
            | by (apply Hin'; subst; left)
            | by (apply Hin'; right)
            | by apply elem_of_cons in Hin' as [? | ?] ].
Qed.

Lemma loc_columns_values (cols : list (string * list pyfloat))
    (labels : list string) (l : string) :
  Forall (fun l => l ∈ cols.*1) labels →
  l ∈ (mjoin ((fun l' => filter (fun c => c.1 = l') cols) <$> labels)).*1
  ↔ l ∈ labels.
Proof.
  intros Hall. rewrite list_elem_of_fmap. split.
  - intros (c & -> & Hc). apply list_elem_of_join in Hc as (cs & Hc & Hcs).
    apply list_elem_of_fmap in Hcs as (l' & -> & Hl').
    by apply list_elem_of_filter in Hc as [-> _].
  - intros Hl. rewrite Forall_forall in Hall.
    pose proof (Hall l Hl) as (c & Heq & Hc)%list_elem_of_fmap.
    exists c. split; [done |]. apply list_elem_of_join.
    exists (filter (fun c' => c'.1 = l) cols). split.
    + by apply list_elem_of_filter.
    + apply list_elem_of_fmap. by exists l.
Qed.

(** With a pandas before 2.0, and the labels of a set visited in one fixed
    order, the two results come back as they are. *)
Lemma train_test_common_features_again
    (train_df test_df train' test' : pd.DataFrame) :
  utils.train_test_common_features pd.before_2_0 train_df test_df
    = Ok (train', test') →
  utils.train_test_common_features pd.before_2_0 train' test'
    = Ok (train', test').
Proof.
  unfold utils.train_test_common_features, pd.loc_set.
  set (common := list_to_set (pd.columns_values train_df)
                 ∩ list_to_set (pd.columns_values test_df) : gset string).
  intros (tr & Htr & (te & Hte & [= -> ->])%bind_Ok)%bind_Ok.
  apply loc_labels_Ok in Htr as [Htr_all ->].
  apply loc_labels_Ok in Hte as [Hte_all ->].
  assert (Hset : ∀ df (Hall : Forall (fun l => l ∈ pd.columns_values df)
                                (elements common)),
            (list_to_set (pd.columns_values
               {| pd.index := pd.index df;
                  pd.columns := mjoin ((fun l' => filter (fun c => c.1 = l')
                                                    (pd.columns df))
                                       <$> elements common) |}) : gset string)
            = common).
  { intros df Hall. apply set_eq. intros l.
    rewrite elem_of_list_to_set. unfold pd.columns_values. simpl.
    rewrite (loc_columns_values _ _ _ Hall). apply elem_of_elements. }
  rewrite (Hset train_df Htr_all), (Hset test_df Hte_all).
  assert (Hcc : common ∩ common = common)
    by (apply set_eq; intros x; rewrite elem_of_intersection; tauto).
  rewrite Hcc.
  assert (Hloc : ∀ df (Hall : Forall (fun l => l ∈ pd.columns_values df)
                                (elements common)),
            let df' := {| pd.index := pd.index df;
                          pd.columns := mjoin ((fun l' =>
                                                  filter (fun c => c.1 = l')
                                                         (pd.columns df))
                                               <$> elements common) |} in
            pd.loc_labels df' (elements common) = Ok df').
  { intros df Hall df'. apply loc_labels_Ok. split.
    - apply Forall_forall. intros l Hl. unfold pd.columns_values, df'. simpl.
      by apply (loc_columns_values _ _ _ Hall).
    - unfold df'. simpl. do 2 f_equal.
      apply Forall_fmap_ext_1, Forall_forall. intros l Hl.
      rewrite filter_label_loc by apply NoDup_elements.
      by rewrite decide_True. }
  rewrite (Hloc train_df Htr_all). simpl.
  by rewrite (Hloc test_df Hte_all).
Qed.

(** X19: With a pandas before 2.0, where [.loc] takes the set, restricting
    two tables to their common features a second time changes nothing: the
    call succeeds again and each result holds the same rows and the same
    columns as before (their order is that in which the set of common
    labels is visited). *)
Theorem train_test_common_features_idempotent
    (train_df test_df train' test' : pd.DataFrame) :
  utils.train_test_common_features pd.before_2_0 train_df test_df
    = Ok (train', test') →
  ∃ train'' test'',
    utils.train_test_common_features pd.before_2_0 train' test'
      = Ok (train'', test'') ∧
    pd.index train'' = pd.index train' ∧
    pd.index test'' = pd.index test' ∧
    pd.columns train'' ≡ₚ pd.columns train' ∧
    pd.columns test'' ≡ₚ pd.columns test'.
Proof.
  intros H%train_test_common_features_again.
  by exists train', test'.
Qed.

Lemma train_test_common_features_idempotent_witness :
  ∃ train'' test'',
    utils.train_test_common_features pd.before_2_0
      {| pd.index := 3; pd.columns := [("b", [f 5; f 5; f 5])] |}
      {| pd.index := 1; pd.columns := [("b", [f 7])] |}
    = Ok (train'', test'') ∧
    pd.index train'' = 3%nat ∧
    pd.index test'' = 1%nat ∧
    pd.columns train'' ≡ₚ [("b", [f 5; f 5; f 5])] ∧
    pd.columns test'' ≡ₚ [("b", [f 7])].
Proof.
  apply (train_test_common_features_idempotent table_example
           {| pd.index := 1; pd.columns := [("c", [f 0]); ("b", [f 7])] |}).
  vm_compute. reflexivity.
Defined.

(** ** The group split: labels, single groups, empty parts *)

(** X20: Labels stay with their rows through the split: each row of the two
    frames is the row of the stacked data at the position picked for it, and
    its label is 1 when that position lies in the first table and 0 when it
    lies in the second. *)
Theorem split_by_group_labels (permutation : nat → list nat)
    (wake_spikes sleep_spikes : list (string * Z)) (test_size : Q)
    X_train X_test y_train y_test :
  load_datasets.split_by_group permutation wake_spikes sleep_spikes test_size
    = Ok (X_train, X_test, y_train, y_test) →
  let picked (positions : list nat) (frame : list (string * Z))
        (labels : list pyfloat) :=
    Forall2 (fun i p =>
               (wake_spikes ++ sleep_spikes) !! i = Some p.1 ∧
               p.2 = if bool_decide (i < length wake_spikes)%nat
                     then Finite 1 else zero)
            positions (zip frame labels) ∧
    length frame = length positions ∧ length labels = length positions in
  ∃ train_index test_index,
    GroupShuffleSplit.split permutation test_size
      ((wake_spikes ++ sleep_spikes).*2) = Ok (train_index, test_index) ∧
    picked train_index X_train y_train ∧
    picked test_index X_test y_test.
Proof.
  intros Hsplit picked. unfold load_datasets.split_by_group in Hsplit.
  rewrite <- !fmap_app in Hsplit. set (D := wake_spikes ++ sleep_spikes) in *.
  apply bind_Ok in Hsplit as ([train test] & Hidx & H).
  apply bind_Ok in H as (Xs & HXs & H).
  apply bind_Ok in H as (Xs' & HXs' & H).
  apply bind_Ok in H as (ys & Hys & H).
  apply bind_Ok in H as (ys' & Hys' & H).
  apply bind_Ok in H as (gs & Hgs & H).
  apply bind_Ok in H as (gs' & Hgs' & [= <- <- <- <-]).
  exists train, test. split; [done |].
  assert (Hpicked : ∀ positions Xs gs ys,
            np.take_indices D.*1 positions = Ok Xs →
            np.take_indices D.*2 positions = Ok gs →
            np.take_indices
              (replicate (length wake_spikes) (Finite 1)
               ++ replicate (length sleep_spikes) zero) positions = Ok ys →
            picked positions (zip Xs gs) ys).
  { clear. intros positions Xs gs ys HXs Hgs Hys.
    pose proof (zip_take_indices D positions Xs gs HXs Hgs) as Hrows.
    apply take_indices_Ok in Hys.
    pose proof (Forall2_length _ _ _ Hrows) as Hlen.
    pose proof (Forall2_length _ _ _ Hys) as Hlen'.
    split; [| done].
    apply Forall2_same_length_lookup. split.
    - rewrite length_zip_with. lia.
    - intros j i [row l] Hi Hp.
      apply lookup_zip_with_Some in Hp as (row' & l' & [= <- <-] & Hrow & Hl).
      destruct (Forall2_lookup_l _ _ _ _ _ Hrows Hi) as (row'' & Hrow'' & HD).
      destruct (Forall2_lookup_l _ _ _ _ _ Hys Hi) as (l'' & Hl'' & Hy).
      simplify_eq. simpl. split; [done |].
      apply lookup_app_Some in Hy as [Hy | [Hge Hy]].
      + apply lookup_replicate in Hy as [-> Hlt].
        by rewrite bool_decide_eq_true_2.
      + apply lookup_replicate in Hy as [-> _].
        rewrite length_replicate in Hge.
        rewrite bool_decide_eq_false_2; [done | lia]. }
  split; by apply Hpicked.
Qed.

Lemma split_by_group_labels_witness :
  ∃ train_index test_index,
    GroupShuffleSplit.split (fun n => rev (seq 0 n)) (1 # 2)
      (([("1,2", 7); ("3,4", 7)] ++ [("5,6", 9)]).*2)
      = Ok (train_index, test_index) ∧
    (Forall2 (fun i p =>
                ([("1,2", 7); ("3,4", 7)] ++ [("5,6", 9)]) !! i = Some p.1 ∧
                p.2 = if bool_decide (i < 2)%nat then Finite 1 else zero)
             train_index (zip [("1,2", 7); ("3,4", 7)] [Finite 1; Finite 1]) ∧
     2%nat = length train_index ∧ 2%nat = length train_index) ∧
    (Forall2 (fun i p =>
                ([("1,2", 7); ("3,4", 7)] ++ [("5,6", 9)]) !! i = Some p.1 ∧
                p.2 = if bool_decide (i < 2)%nat then Finite 1 else zero)
             test_index (zip [("5,6", 9)] [zero]) ∧
     1%nat = length test_index ∧ 1%nat = length test_index).
Proof.
  apply (split_by_group_labels (fun n => rev (seq 0 n))
           [("1,2", 7); ("3,4", 7)] [("5,6", 9)] (1 # 2)).
  by vm_compute.
Defined.

Lemma validate_shuffle_split_Ok (n : nat) (test_size : Q) n_train n_test :
  GroupShuffleSplit._validate_shuffle_split n test_size = Ok (n_train, n_test) →
  (0 < n_test)%nat ∧ (0 < n_train)%nat ∧ (n_train + n_test = n)%nat.
Proof.
  unfold GroupShuffleSplit._validate_shuffle_split.
  destruct (Qle_bool test_size 0) eqn:H0; [done |].
  destruct (Qle_bool 1 test_size) eqn:H1; [done |]. simpl.
  case_decide as Hn; [done |]. intros [= <- <-].
  assert (Hpos : (0 < test_size)%Q).
  { apply Qnot_le_lt. intros Hle%Qle_bool_iff. congruence. }
  assert (Hlt : (test_size < 1)%Q).
  { apply Qnot_le_lt. intros Hle%Qle_bool_iff. congruence. }
  set (x := (test_size * inject_Z (Z.of_nat n))%Q) in *.
  assert (Hn0 : (0 < n)%nat) by lia.
  assert (HN : (0 < inject_Z (Z.of_nat n))%Q).
  { unfold Qlt. simpl. lia. }
  assert (Hx : (0 < x)%Q) by (by apply Qmult_lt_0_compat).
  assert (Hc : (0 < Qceiling x)%Z).
  { pose proof (Qle_ceiling x) as Hle.
    pose proof (Qlt_le_trans _ _ _ Hx Hle) as Hc.
    unfold Qlt in Hc. simpl in Hc. lia. }
  lia.
Qed.

(** With fewer than two distinct groups there is nothing to split: the
    call fails, whatever the test fraction and the permutation. *)
Lemma split_single_group (permutation : nat → list nat) (test_size : Q)
    (groups : list Z) :
  (∀ g g', g ∈ groups → g' ∈ groups → g = g') →
  ∃ why, GroupShuffleSplit.split permutation test_size groups
         = Raise (ValueError why).
Proof.
  intros Hone. unfold GroupShuffleSplit.split, GroupShuffleSplit.unique.
  set (classes := merge_sort Z.le (remove_dups groups)).
  assert (Hlen : (length classes ≤ 1)%nat).
  { unfold classes. rewrite merge_sort_Permutation.
    pose proof (NoDup_remove_dups groups) as Hnd.
    destruct (remove_dups groups) as [|g [|g' l]] eqn:Hr; simpl; [lia | lia |].
    exfalso. apply NoDup_cons in Hnd as [Hg _]. apply Hg.
    assert (g = g') as ->; [| left].
    apply Hone; apply elem_of_remove_dups; rewrite Hr;
      [left | right; left]. }
  unfold GroupShuffleSplit._iter_indices.
  destruct (GroupShuffleSplit._validate_shuffle_split (length classes) test_size)
    as [[n_train n_test]|e] eqn:Hval.
  - apply validate_shuffle_split_Ok in Hval. lia.
  - unfold GroupShuffleSplit._validate_shuffle_split in Hval.
    destruct (_ || _); [injection Hval as <-; by eexists |].
    case_decide; [injection Hval as <-; by eexists | done].
Qed.

(** X21: A dataset whose rows all carry one group identifier cannot be loaded:
    the split fails before anything is encoded. *)
Theorem load_fcx1_single_group {R : Type} (permutation : nat → list nat)
    (encode_spike_trains :
       list (string * Z) → list (string * Z) →
       list pyfloat → list pyfloat → result R)
    (wake_spikes sleep_spikes : list (string * Z)) (test_size : Q) :
  (∀ row row', row ∈ wake_spikes ++ sleep_spikes →
               row' ∈ wake_spikes ++ sleep_spikes → row.2 = row'.2) →
  ∃ why, load_datasets.load_fcx1 permutation encode_spike_trains
           wake_spikes sleep_spikes test_size = Raise (ValueError why).
Proof.
  intros Hone.
  destruct (split_single_group permutation test_size
              ((wake_spikes ++ sleep_spikes).*2)) as [why Hwhy].
  { intros g g' (row & -> & Hrow)%list_elem_of_fmap
      (row' & -> & Hrow')%list_elem_of_fmap. by apply Hone. }
  exists why. unfold load_datasets.load_fcx1, load_datasets.split_by_group.
  rewrite <- !fmap_app. by rewrite Hwhy.
Qed.

Lemma load_fcx1_single_group_witness :
  ∃ why, load_datasets.load_fcx1 (seq 0) (fun a b c e => Ok (a, b, c, e))
           [("1,2", 7); ("3,4", 7)] [("5,6", 7)] (3 # 10)
         = Raise (ValueError why).
Proof.
  apply (load_fcx1_single_group (seq 0) (fun a b c e => Ok (a, b, c, e))
           [("1,2", 7); ("3,4", 7)] [("5,6", 7)] (3 # 10)).
  intros row row' Hrow Hrow'.
  repeat (apply elem_of_cons in Hrow as [-> | Hrow]);
    repeat (apply elem_of_cons in Hrow' as [-> | Hrow']);
    try done; by apply elem_of_nil in Hrow || by apply elem_of_nil in Hrow'.
Defined.

(** Every class is the class of some entry. *)
Lemma unique_class_sample (groups : list Z) (c : nat) :
  (c < length (GroupShuffleSplit.unique groups).1)%nat →
  ∃ i, (GroupShuffleSplit.unique groups).2 !! i = Some c.
Proof.
  unfold GroupShuffleSplit.unique. simpl.
  set (classes := merge_sort Z.le (remove_dups groups)).
  intros [g Hg]%lookup_lt_is_Some_2.
  assert (Hnd : NoDup classes).
  { unfold classes. rewrite merge_sort_Permutation. apply NoDup_remove_dups. }
  assert (Hin : g ∈ groups).
  { apply elem_of_remove_dups. rewrite <- (merge_sort_Permutation Z.le).
    by eapply list_elem_of_lookup_2. }
  apply list_elem_of_lookup in Hin as [i Hi]. exists i.
  rewrite list_lookup_fmap, Hi. simpl. f_equal.
  destruct (list_find_elem_of (fun c' => c' = g) classes g) as [[j x] Hfind];
    [by eapply list_elem_of_lookup_2 | done |].
  rewrite Hfind. simpl.
  apply list_find_Some in Hfind as (Hj & -> & _).
  by eapply NoDup_lookup.
Qed.

Lemma split_parts_nonempty (permutation : nat → list nat) (test_size : Q)
    (groups : list Z) train test :
  (∀ n, permutation n ≡ₚ seq 0 n) →
  GroupShuffleSplit.split permutation test_size groups = Ok (train, test) →
  train ≠ [] ∧ test ≠ [].
Proof.
  intros Hperm. unfold GroupShuffleSplit.split.
  destruct (GroupShuffleSplit.unique groups) as [classes gi] eqn:Hu.
  intros ([gt gte] & Hiter & [= <- <-])%bind_Ok.
  unfold GroupShuffleSplit._iter_indices in Hiter.
  apply bind_Ok in Hiter as ([n_train n_test] & Hval & [= <- <-]).
  apply validate_shuffle_split_Ok in Hval as (Hte & Htr & Hsum).
  assert (Hlen : length (permutation (length classes)) = length classes)
    by (by rewrite Hperm, length_seq).
  assert (Hpart : ∀ part, part ≠ [] → part ⊆ permutation (length classes) →
            GroupShuffleSplit.flatnonzero (GroupShuffleSplit.isin gi part) ≠ []).
  { intros [|c part] Hne Hsub; [done |]. clear Hne.
    assert (Hc : (c < length classes)%nat).
    { assert (Hin : c ∈ permutation (length classes)) by (apply Hsub; left).
      rewrite Hperm in Hin. apply elem_of_seq in Hin. lia. }
    destruct (unique_class_sample groups c) as [i Hi]; [by rewrite Hu |].
    rewrite Hu in Hi. simpl in Hi.
    assert (Hin : i ∈ GroupShuffleSplit.flatnonzero
                        (GroupShuffleSplit.isin gi (c :: part))).
    { apply flatnonzero_elem, isin_lookup. exists c. split; [done | left]. }
    intros Hnil. rewrite Hnil in Hin. by apply elem_of_nil in Hin. }
  split; apply Hpart.
  - intros Hnil. apply (f_equal length) in Hnil. unfold slice in Hnil.
    rewrite length_take, length_drop in Hnil. simpl in Hnil. lia.
  - unfold slice. intros c Hc.
    by apply (subseteq_take _ _ c) in Hc; apply (subseteq_drop _ _ c) in Hc.
  - intros Hnil. apply (f_equal length) in Hnil.
    rewrite length_take in Hnil. simpl in Hnil. lia.
  - apply subseteq_take.
Qed.

(** X22: A split that succeeds leaves neither side empty: both frames hold at
    least one row. The random permutation of the groups is any permutation. *)
Theorem split_by_group_nonempty (permutation : nat → list nat)
    (wake_spikes sleep_spikes : list (string * Z)) (test_size : Q)
    X_train X_test y_train y_test :
  (∀ n, permutation n ≡ₚ seq 0 n) →
  load_datasets.split_by_group permutation wake_spikes sleep_spikes test_size
    = Ok (X_train, X_test, y_train, y_test) →
  X_train ≠ [] ∧ X_test ≠ [] ∧ y_train ≠ [] ∧ y_test ≠ [].
Proof.
  intros Hperm Hsplit. unfold load_datasets.split_by_group in Hsplit.
  apply bind_Ok in Hsplit as ([train test] & Hidx & H).
  apply bind_Ok in H as (Xs & HXs & H).
  apply bind_Ok in H as (Xs' & HXs' & H).
  apply bind_Ok in H as (ys & Hys & H).
  apply bind_Ok in H as (ys' & Hys' & H).
  apply bind_Ok in H as (gs & Hgs & H).
  apply bind_Ok in H as (gs' & Hgs' & [= <- <- <- <-]).
  apply split_parts_nonempty in Hidx as [Htr Hte]; [| done].
  apply take_indices_Ok, Forall2_length in HXs, HXs', Hys, Hys', Hgs, Hgs'.
  destruct train, test; try done. simpl in *.
  destruct Xs, Xs', ys, ys', gs, gs'; done.
Qed.

Lemma split_by_group_nonempty_witness :
  [("1,2", 7); ("3,4", 7)] ≠ [] ∧ [("5,6", 9)] ≠ [] ∧
  [Finite 1; Finite 1] ≠ [] ∧ [zero] ≠ [].
Proof.
  apply (split_by_group_nonempty (fun n => rev (seq 0 n))
           [("1,2", 7); ("3,4", 7)] [("5,6", 9)] (1 # 2)).
  - intros n. symmetry. apply Permutation_rev.
  - by vm_compute.
Defined.
